(** * weserv/images: the decode, page-selection, orientation and encode
      pipeline of [api/processors/stream.cpp], with the buffer handle of
      [api/io/blob.h].

    The C++ code is embedded shallowly.  [int] values are integers of [Z]
    with the two's complement wrap-around written out, [uint64_t] and
    [uintptr_t] values are reduced modulo [2^64], [float] is IEEE binary32
    (the executable [spec_float] operations of the standard library at
    precision 24).  Exceptions are a result type, and the effects of the
    pipeline (the parameter store behind [query_], the calls into the codec,
    the writes to the target) are threaded through a small state monad. *)

From Stdlib Require Import ZArith Lia Ascii SpecFloat.
From stdpp Require Import base gmap strings list pretty.

Local Open Scope Z_scope.

(** ** Machine arithmetic *)

Module Cxx.

Definition INT_MIN : Z := - 2 ^ 31.
Definition INT_MAX : Z := 2 ^ 31 - 1.

Definition in_int (z : Z) : bool := (INT_MIN <=? z) && (z <=? INT_MAX).

(** Conversion to [int]: the value modulo [2^32], read as two's complement. *)
Definition to_int (z : Z) : Z := (z + 2 ^ 31) mod 2 ^ 32 - 2 ^ 31.

(** Conversion to [uint64_t], [uintptr_t] and [size_t]. *)
Definition to_uint64 (z : Z) : Z := z mod 2 ^ 64.

Definition int_add (a b : Z) : Z := to_int (a + b).
Definition int_sub (a b : Z) : Z := to_int (a - b).

(** [a % b] truncates towards zero. *)
Definition int_rem (a b : Z) : Z := Z.rem a b.

Definition uint64_mul (a b : Z) : Z := to_uint64 (to_uint64 a * to_uint64 b).

(** [std::clamp(v, lo, hi)]. *)
Definition clamp (v lo hi : Z) : Z :=
  if v <? lo then lo else if hi <? v then hi else v.

(** [std::to_string] on an integer. *)
Definition to_string (z : Z) : string := pretty z.

(** [s.substr(1)]: throws [std::out_of_range] when [s] is empty. *)
Definition substr1 (s : string) : option string :=
  match s with
  | EmptyString => None
  | String _ rest => Some rest
  end.

(** [std::vector<int>::max_size()] of a 64-bit libstdc++. *)
Definition vector_max_size : Z := 2 ^ 61 - 1.

End Cxx.

(** ** IEEE binary32 *)

Module Float.

Definition prec : Z := 24.
Definition emax : Z := 128.

Definition float : Type := spec_float.

(** [static_cast<float>(i)]: round to nearest, ties to even. *)
Definition of_int (i : Z) : float := binary_normalize prec emax i 0 false.

Definition mul (x y : float) : float := SFmul prec emax x y.

(** [x <= y]; false as soon as one side is a NaN. *)
Definition leb (x y : float) : bool := SFleb x y.

(** [std::round(x)]: the nearest integral value, halfway cases away from
    zero.  The result of [std::round] is an integral [float]; it is kept as
    the integer it denotes, [None] standing for an infinity or a NaN (which
    [std::round] returns unchanged). *)
Definition round (x : float) : option Z :=
  match x with
  | S754_zero _ => Some 0
  | S754_finite s m e =>
      if 0 <=? e then Some (cond_Zopp s (Zpos m * 2 ^ e))
      else
        let d := 2 ^ (- e) in
        let q := Zpos m / d in
        let r := Zpos m mod d in
        Some (cond_Zopp s (if d <=? 2 * r then q + 1 else q))
  | _ => None
  end.

(** [static_cast<int>(v)] on the integral value [v].  The conversion is
    undefined when the value does not fit an [int]; the model then returns
    what the x86-64 conversion instruction does, [INT_MIN]. *)
Definition to_int (v : option Z) : Z :=
  match v with
  | Some k => if Cxx.in_int k then k else Cxx.INT_MIN
  | None => Cxx.INT_MIN
  end.

End Float.

(** ** Data model *)

(** [enums::Output].  The enumerators are the ones [stream.cpp] names; their
    numeric values (one bit of the saver mask each) are declared in a header
    that is not part of the sources at hand, see [Utility]. *)
Inductive Output : Type :=
  | Origin | Jpeg | Png | Webp | Avif | Tiff | Gif | Json.

#[global] Instance Output_eq_dec : EqDecision Output.
Proof. solve_decision. Defined.

(** [enums::ImageType], by its underlying integer: the pipeline stores it
    with [static_cast<int>] and reads it back. *)
Definition ImageType : Type := Z.

Inductive VipsAccess : Type :=
  | VIPS_ACCESS_RANDOM | VIPS_ACCESS_SEQUENTIAL.

(** What the pipeline observes of a decoded [VImage]: its dimensions, the
    metadata fields it reads and the ones [write_to_target] attaches. *)
Record VImage : Type := mkVImage {
  width : Z;
  height : Z;
  meta_n_pages : option Z;      (* VIPS_META_N_PAGES, when the field exists *)
  meta_orientation : option Z;  (* VIPS_META_ORIENTATION *)
  has_alpha : bool;
  meta_page_height : option Z;  (* VIPS_META_PAGE_HEIGHT *)
  meta_loop : option Z;
  meta_delay : option (list Z)
}.

Definition set_page_height (v : Z) (im : VImage) : VImage :=
  mkVImage (width im) (height im) (meta_n_pages im) (meta_orientation im)
           (has_alpha im) (Some v) (meta_loop im) (meta_delay im).

Definition set_loop (v : Z) (im : VImage) : VImage :=
  mkVImage (width im) (height im) (meta_n_pages im) (meta_orientation im)
           (has_alpha im) (meta_page_height im) (Some v) (meta_delay im).

Definition set_delay (v : list Z) (im : VImage) : VImage :=
  mkVImage (width im) (height im) (meta_n_pages im) (meta_orientation im)
           (has_alpha im) (meta_page_height im) (meta_loop im) (Some v).

(** ** The buffer handle of [blob.h] *)

(** A [VipsBlob *] is an address; [None] is [nullptr]. *)
Definition VipsBlob : Type := positive.

Record Blob : Type := mkBlob { blob_ : option VipsBlob }.

(** [explicit Blob(VipsBlob *blob = nullptr)]. *)
Definition Blob_default : Blob := mkBlob None.

(** [operator==(std::nullptr_t)] and [operator!=(std::nullptr_t)]. *)
Definition Blob_is_null (b : Blob) : bool :=
  match blob_ b with None => true | Some _ => false end.
Definition Blob_not_null (b : Blob) : bool := negb (Blob_is_null b).

(** The reference counts of the blobs alive, and what [reference()] and
    [unreference()] do to them. *)
Definition reference (b : Blob) (rc : gmap VipsBlob Z) : gmap VipsBlob Z :=
  match blob_ b with
  | Some p => <[p := default 0 (rc !! p) + 1]> rc
  | None => rc
  end.

Definition unreference (b : Blob) (rc : gmap VipsBlob Z) : gmap VipsBlob Z :=
  match blob_ b with
  | Some p => <[p := default 0 (rc !! p) - 1]> rc
  | None => rc
  end.

(** Copy constructor and assignment. *)
Definition Blob_copy (a : Blob) (rc : gmap VipsBlob Z) : Blob * gmap VipsBlob Z :=
  (mkBlob (blob_ a), reference a rc).

Definition Blob_assign (this a : Blob) (rc : gmap VipsBlob Z)
  : Blob * gmap VipsBlob Z :=
  if decide (blob_ this = blob_ a) then (this, rc)
  else (mkBlob (blob_ a), reference a (unreference this rc)).

(** ** Options of a load call *)

Record VOption : Type := mkVOption {
  opt_access : VipsAccess;
  opt_fail : bool;
  opt_n : option Z;
  opt_page : option Z;
  opt_buffer : option VipsBlob   (* "buffer" when set, "source" otherwise *)
}.

(** Options of a save call, in the order they are set. *)
Inductive OptionValue : Type :=
  | OBool (b : bool)
  | OInt (i : Z)
  | OString (s : string)
  | OEnum (name : string).

Definition SaveOptions : Type := list (string * OptionValue).

(** ** The input source, as the codec library sees it *)

(** The answers of the codec library on one input: the loader it finds for
    the stream, the blob it maps, the loader it finds for the buffer, the
    text of its error buffer, and the outcome of a load call ([inl] is the
    message of the [VError] it throws). *)
Record Source : Type := mkSource {
  vips_foreign_find_load_source : option string;
  vips_source_map_blob : option VipsBlob;
  vips_foreign_find_load_buffer : option string;
  vips_error_buffer : string;
  VImage_call : string -> VOption -> string + VImage
}.

(** ** Configuration *)

(** The fields of [config_] the pipeline reads.  The structure is declared in
    a header that is not part of the sources at hand; its integer fields are
    kept as integers of [Z], and the comparisons the pipeline makes on them
    are comparisons of [Z]. *)
Record Config : Type := mkConfig {
  fail_on_error : Z;
  savers : Z;
  max_pages : Z;
  limit_input_pixels : Z;
  process_timeout : Z;
  jpeg_quality : Z;
  zlib_level : Z;
  webp_quality : Z;
  webp_effort : Z;
  avif_quality : Z;
  avif_effort : Z;
  tiff_quality : Z;
  gif_effort : Z
}.

(** ** Exceptions *)

Inductive exception : Type :=
  | InvalidImageException (what : string)
  | UnreadableImageException (what : string)
  | TooLargeImageException (what : string)
  | UnsupportedSaverException (what : string)
  | std_out_of_range
  | std_length_error
  | VError (what : string).

Inductive result (A : Type) : Type :=
  | Ok (a : A)
  | Throw (e : exception).
Arguments Ok {A} a.
Arguments Throw {A} e.

(** [VIPS_MAX_COORD] of the codec library's headers. *)
Definition VIPS_MAX_COORD : Z := 10000000.

(** ** Helpers the pipeline calls but the sources at hand do not define *)

(** The helpers of [utils/utility.h], the [parsers::Coordinate] class and the
    numeric values of the [Output] enumerators: [stream.cpp] calls them,
    their definitions are not part of the sources at hand, so the pipeline
    is embedded over any implementation of them.  So is the outcome of the
    save call of the codec library, [copy.write_to_target(extension, target,
    save_options)]: [write_to_target_error] is the message of the [VError]
    it throws, [None] when it returns; a save call the timeout handler
    aborts fails in this way. *)
Class Utility : Type := {
  Coordinate : Type;
  Coordinate_INVALID : Coordinate;
  to_pixels : Coordinate -> Z -> Z;
  ImageType_Unknown : ImageType;
  Output_value : Output -> Z;
  exif_orientation : VImage -> Z;
  determine_image_type : string -> ImageType;
  support_alpha_channel : ImageType -> bool;
  to_output : ImageType -> Output;
  determine_image_extension : Output -> string;
  supported_savers_string : Z -> string;
  image_to_json : VImage -> ImageType -> string;
  write_to_target_error : string -> VImage -> SaveOptions -> option string
}.

(** ** The parameter store *)

(** A stored parameter, by the type it converts to. *)
Inductive Value {U : Utility} : Type :=
  | VBool (b : bool)
  | VInt (i : Z)
  | VFloat (f : Float.float)
  | VCoordinate (c : Coordinate)
  | VOutput (o : Output)
  | VIntVector (v : list Z).
Arguments VBool {U} b.
Arguments VInt {U} i.
Arguments VFloat {U} f.
Arguments VCoordinate {U} c.
Arguments VOutput {U} o.
Arguments VIntVector {U} v.

Module Query.

(** The store itself: parameter names to values. *)
Abbreviation t := (gmap string Value).

Section Store.
Context {U : Utility}.

(** Modelled from the spec: the parameter store behind [query_]
    ([parsers/query.h] is not part of the sources at hand).
    [get<T>(key, default)] returns the value converted to [T] if present and
    convertible, else [default]; no operation fails. *)
Definition get_int (q : t) (key : string) (d : Z) : Z :=
  match q !! key with Some (VInt i) => i | _ => d end.

(** Modelled from the spec: [get<bool>(key, default)]. *)
Definition get_bool (q : t) (key : string) (d : bool) : bool :=
  match q !! key with Some (VBool b) => b | _ => d end.

(** Modelled from the spec: [get<float>(key, default)]. *)
Definition get_float (q : t) (key : string) (d : Float.float) : Float.float :=
  match q !! key with Some (VFloat f) => f | _ => d end.

(** Modelled from the spec: [get<Coordinate>(key, default)]. *)
Definition get_Coordinate (q : t) (key : string) (d : Coordinate) : Coordinate :=
  match q !! key with Some (VCoordinate c) => c | _ => d end.

(** Modelled from the spec: [get<Output>(key, default)]. *)
Definition get_Output (q : t) (key : string) (d : Output) : Output :=
  match q !! key with Some (VOutput o) => o | _ => d end.

(** Modelled from the spec: [get<ImageType>(key, default)]; an [ImageType]
    is stored as the [int] it was cast to. *)
Definition get_ImageType (q : t) (key : string) (d : ImageType) : ImageType :=
  get_int q key d.

(** Modelled from the spec: [get_if<int>(key, validator, default)] also
    falls back to [default] when the value fails [validator]. *)
Definition get_if_int (q : t) (key : string) (validator : Z -> bool) (d : Z) : Z :=
  match q !! key with
  | Some (VInt i) => if validator i then i else d
  | _ => d
  end.

(** Modelled from the spec: [get_if<std::vector<int>>(key, validator,
    default)]. *)
Definition get_if_vector (q : t) (key : string)
    (validator : list Z -> bool) (d : list Z) : list Z :=
  match q !! key with
  | Some (VIntVector v) => if validator v then v else d
  | _ => d
  end.

(** Modelled from the spec: [get<int>(key)] without a default, which the
    spec does not describe, is read as [get<int>(key, int())].  The pipeline
    uses it on ["n"] and ["page_height"] only, after they were stored. *)
Definition get_int1 (q : t) (key : string) : Z := get_int q key 0.

(** Modelled from the spec: [update(key, value)] sets or overwrites. *)
Definition update (q : t) (key : string) (v : Value) : t := <[key := v]> q.

End Store.
End Query.

(** ** Effects *)

(** What the pipeline does to the outside: calls on the target, the timeout
    guard, and the save call of the codec library. *)
Inductive Event : Type :=
  | Target_setup (extension : string)
  | Target_write (data : string)
  | Target_end
  | setup_timeout_handler (copy : VImage) (timeout : Z)
  | VImage_write_to_target (extension : string) (copy : VImage)
                           (options : SaveOptions).

(** The state one request runs in: its parameter store, the load calls made
    so far (loader name and options, oldest first) and the events emitted so
    far. *)
Record State {U : Utility} : Type := mkState {
  query_ : Query.t;
  loads : list (string * VOption);
  events : list Event
}.
Arguments mkState {U} query_ loads events.

Section Monad.
Context {U : Utility}.

Definition M (A : Type) : Type := State -> result A * State.

Definition ret {A} (a : A) : M A := fun st => (Ok a, st).

Definition bind {A B} (m : M A) (k : A -> M B) : M B :=
  fun st =>
    match m st with
    | (Ok a, st') => k a st'
    | (Throw e, st') => (Throw e, st')
    end.

Definition throw {A} (e : exception) : M A := fun st => (Throw e, st).

Definition get_query : M Query.t := fun st => (Ok (query_ st), st).

Definition query_update (key : string) (v : Value) : M unit :=
  fun st => (Ok tt, mkState (Query.update (query_ st) key v) (loads st) (events st)).

Definition modify_query (f : Query.t -> Query.t) : M unit :=
  fun st => (Ok tt, mkState (f (query_ st)) (loads st) (events st)).

Definition log_load (loader : string) (options : VOption) : M unit :=
  fun st => (Ok tt, mkState (query_ st) (loads st ++ [(loader, options)]) (events st)).

Definition emit (e : Event) : M unit :=
  fun st => (Ok tt, mkState (query_ st) (loads st) (events st ++ [e])).

Definition lift {A} (r : result A) : M A := fun st => (r, st).

End Monad.

Notation "'let*' x := m 'in' k" := (bind m (fun x => k))
  (at level 10, x name, m at level 100, k at level 200).
Notation "m >> k" := (bind m (fun _ => k))
  (at level 100, k at level 200, right associativity).

(** ** [Stream] *)

Section Stream.
Context {U : Utility}.
Variable config_ : Config.

(** [options->set("buffer", blob.get())] when the blob is not null,
    [options->set("source", source)] otherwise. *)
Definition set_input (blob : Blob) (options : VOption) : VOption :=
  mkVOption (opt_access options) (opt_fail options) (opt_n options)
            (opt_page options)
            (if Blob_not_null blob then blob_ blob else None).

(** The options [Stream::resolve_page] loads page [i] with. *)
Definition page_options (i : Z) : VOption :=
  mkVOption VIPS_ACCESS_SEQUENTIAL (fail_on_error config_ =? 1) None (Some i) None.

(** The options of the reload with [n] and [page] set. *)
Definition reload_options (access_method : VipsAccess) (n page : Z) : VOption :=
  mkVOption access_method (fail_on_error config_ =? 1) (Some n) (Some page) None.

(** [Stream::new_from_source(source, blob, loader, options)]: one load call. *)
Definition new_from_source_with (source : Source) (blob : Blob)
    (loader : string) (options : VOption) : M VImage :=
  let options := set_input blob options in
  log_load loader options >>
  match VImage_call source loader options with
  | inr out_image => ret out_image
  | inl what => throw (UnreadableImageException what)
  end.

(** [static_cast<uint64_t>(image.height()) * image.width()]. *)
Definition pixel_size (image : VImage) : Z :=
  Cxx.uint64_mul (height image) (width image).

(** The loop of [Stream::resolve_page], from page [i] on, [fuel] pages
    left. *)
Fixpoint resolve_page_from (source : Source) (blob : Blob) (loader : string)
    (comp : Z -> Z -> bool) (fuel : nat) (i : Z) (size : Z) (target_page : Z)
  : M Z :=
  match fuel with
  | O => ret target_page
  | S fuel' =>
      let* image_page :=
        new_from_source_with source blob loader (page_options i) in
      let page_size := pixel_size image_page in
      if comp page_size size
      then resolve_page_from source blob loader comp fuel' (i + 1) page_size i
      else resolve_page_from source blob loader comp fuel' (i + 1) size target_page
  end.

Definition resolve_page (image : VImage) (n_pages : Z) (source : Source)
    (blob : Blob) (loader : string) (comp : Z -> Z -> bool) : M Z :=
  resolve_page_from source blob loader comp (Z.to_nat (n_pages - 1)) 1
                    (pixel_size image) 0.

(** [std::greater<>] and [std::less<>]. *)
Definition greater (a b : Z) : bool := b <? a.
Definition less (a b : Z) : bool := a <? b.

Definition page_validator (n_pages p : Z) : bool :=
  (p =? -1) || (p =? -2) || ((0 <=? p) && (p <=? n_pages)).

Definition n_validator (n_pages n : Z) : bool :=
  (n =? -1) || ((1 <=? n) && (n <=? n_pages)).

(** [Stream::get_page_load_options]: the pair [(n, page)]. *)
Definition get_page_load_options (q : Query.t) (n_pages : Z) : Z * Z :=
  if n_pages =? 1 then (1, 0)
  else
    let page := Query.get_if_int q "page" (page_validator n_pages) 0 in
    if (page =? -1) || (page =? -2) then (1, page)
    else
      let n := Query.get_if_int q "n" (n_validator n_pages) 1 in
      let n := if n =? -1 then Cxx.int_sub n_pages page else n in
      (n, page).

(** The orientation table of [Stream::resolve_query]: the rotation and the
    two mirror flags after the [switch] on the EXIF code. *)
Definition apply_exif_orientation (exif : Z) (rotate : Z) (flip flop : bool)
  : Z * bool * bool :=
  match exif with
  | 6 => (Cxx.int_add rotate 90, flip, flop)
  | 3 => (Cxx.int_add rotate 180, flip, flop)
  | 8 => (Cxx.int_add rotate 270, flip, flop)
  | 2 => (rotate, flip, true)
  | 7 => (Cxx.int_add rotate 90, true, flop)
  | 4 => (Cxx.int_add rotate 180, flip, true)
  | 5 => (Cxx.int_add rotate 270, true, flop)
  | _ => (rotate, flip, flop)
  end.

Definition rotate_validator (r : Z) : bool := Cxx.int_rem r 90 =? 0.

(** [int angle = rotate % 360; if (angle < 0) angle = 360 + angle;] *)
Definition normalize_angle (rotate : Z) : Z :=
  let angle := Cxx.int_rem rotate 360 in
  if angle <? 0 then Cxx.int_add 360 angle else angle.

(** [pixel_ratio >= 0 && pixel_ratio <= 8]. *)
Definition pixel_ratio_in_range (pixel_ratio : Float.float) : bool :=
  Float.leb (Float.of_int 0) pixel_ratio && Float.leb pixel_ratio (Float.of_int 8).

(** [static_cast<int>(std::round(static_cast<float>(d) * pixel_ratio))]. *)
Definition scale_by_pixel_ratio (d : Z) (pixel_ratio : Float.float) : Z :=
  Float.to_int (Float.round (Float.mul (Float.of_int d) pixel_ratio)).

(** [Stream::resolve_query]: the parameter store after the call. *)
Definition resolve_query (image : VImage) (q : Query.t) : Query.t :=
  let rotate := Query.get_if_int q "ro" rotate_validator 0 in
  let flip := Query.get_bool q "flip" false in
  let flop := Query.get_bool q "flop" false in
  let exif_orientation := exif_orientation image in
  let '(rotate, flip, flop) :=
    apply_exif_orientation exif_orientation rotate flip flop in
  let angle := normalize_angle rotate in
  let q := Query.update q "angle" (VInt angle) in
  let q := Query.update q "flip" (VBool flip) in
  let q := Query.update q "flop" (VBool flop) in
  let image_width := width image in
  let image_height := height image in
  let target_width :=
    to_pixels (Query.get_Coordinate q "w" Coordinate_INVALID) image_width in
  let target_height :=
    to_pixels (Query.get_Coordinate q "h" Coordinate_INVALID) image_height in
  let pixel_ratio := Query.get_float q "dpr" (Float.of_int (-1)) in
  let '(target_width, target_height) :=
    if pixel_ratio_in_range pixel_ratio
    then (scale_by_pixel_ratio target_width pixel_ratio,
          scale_by_pixel_ratio target_height pixel_ratio)
    else (target_width, target_height) in
  let '(target_width, target_height) :=
    if (4 <? exif_orientation) && negb (Query.get_bool q "precrop" false)
    then (target_height, target_width)
    else (target_width, target_height) in
  let q := Query.update q "w" (VInt (Cxx.clamp target_width 0 VIPS_MAX_COORD)) in
  let q := Query.update q "h" (VInt (Cxx.clamp target_height 0 VIPS_MAX_COORD)) in
  let q := Query.update q "input_width" (VInt image_width) in
  let q := Query.update q "input_height" (VInt image_height) in
  q.

Definition too_many_pages : exception :=
  TooLargeImageException
    ("Input image exceeds the maximum number of pages. " +:+
     "Number of pages should be less than " +:+
     Cxx.to_string (max_pages config_)).

Definition too_many_pixels : exception :=
  TooLargeImageException
    ("Input image exceeds pixel limit. " +:+
     "Width x height should be less than " +:+
     Cxx.to_string (limit_input_pixels config_)).

(** The codec detection at the head of [Stream::new_from_source(source)]:
    the loader, and the blob when the buffer-based loaders are used. *)
Definition find_loader (source : Source) : M (string * Blob) :=
  match vips_foreign_find_load_source source with
  | Some loader => ret (loader, Blob_default)
  | None =>
      match vips_source_map_blob source with
      | None => throw (InvalidImageException (vips_error_buffer source))
      | Some b =>
          match vips_foreign_find_load_buffer source with
          | None => throw (InvalidImageException (vips_error_buffer source))
          | Some loader => ret (loader, mkBlob (Some b))
          end
      end
  end.

(** The page block of [Stream::new_from_source(source)],
    [if (n != 1 || page != 0) { ... }]: the page limit, the scan for the
    largest or smallest page, and the reload.  It returns the image and the
    page the pipeline goes on with. *)
Definition load_pages (source : Source) (blob : Blob) (loader : string)
    (access_method : VipsAccess) (image : VImage) (n_pages n page : Z)
  : M (VImage * Z) :=
  if negb (n =? 1) || negb (page =? 0)
  then
    (if (0 <? max_pages config_) && (max_pages config_ <? n)
     then throw too_many_pages else ret tt) >>
    let* page := (if page =? -1
                  then resolve_page image n_pages source blob loader greater
                  else if page =? -2
                  then resolve_page image n_pages source blob loader less
                  else ret page) in
    let* image := new_from_source_with source blob loader
                    (reload_options access_method n page) in
    ret (image, page)
  else ret (image, page).

(** The pixel limit of [Stream::new_from_source(source)]. *)
Definition check_input_pixels (image : VImage) : M unit :=
  if (0 <? limit_input_pixels config_)
     && (limit_input_pixels config_ <? Cxx.uint64_mul (width image) (height image))
  then throw too_many_pixels else ret tt.

(** [image.get_typeof(VIPS_META_N_PAGES) != 0
      ? image.get_int(VIPS_META_N_PAGES) : 1]. *)
Definition n_pages_of (image : VImage) : Z :=
  match meta_n_pages image with Some p => p | None => 1 end.

(** What [Stream::new_from_source(source)] does once the first load call
    returned [image]. *)
Definition select_and_resolve (source : Source) (blob : Blob) (loader : string)
    (access_method : VipsAccess) (q : Query.t) (image : VImage) : M VImage :=
  let n_pages := n_pages_of image in
  let '(n, page) := get_page_load_options q n_pages in
  let* ip := load_pages source blob loader access_method image n_pages n page in
  let '(image, page) := ip in
  check_input_pixels image >>
  query_update "n" (VInt n) >>
  query_update "page" (VInt page) >>
  modify_query (resolve_query image) >>
  ret image.

(** The access mode of the first load and of the reload: random access
    when a trim is requested, sequential access otherwise. *)
Definition access_method_of (q : Query.t) : VipsAccess :=
  if negb (Query.get_int q "trim" 0 =? 0)
  then VIPS_ACCESS_RANDOM else VIPS_ACCESS_SEQUENTIAL.

(** The options of the first load. *)
Definition first_options (q : Query.t) : VOption :=
  mkVOption (access_method_of q) (fail_on_error config_ =? 1) None None None.

(** [Stream::new_from_source(source)]. *)
Definition new_from_source (source : Source) : M VImage :=
  let* lb := find_loader source in
  let '(loader, blob) := lb in
  let image_type := determine_image_type loader in
  query_update "type" (VInt image_type) >>
  let* q := get_query in
  let access_method := access_method_of q in
  let* image := new_from_source_with source blob loader (first_options q) in
  select_and_resolve source blob loader access_method q image.

End Stream.

(** ** Saving *)

Section Save.
Context {U : Utility}.
Variable config_ : Config.

Definition quality_validator (q : Z) : bool := (1 <=? q) && (q <=? 100).
Definition level_validator (l : Z) : bool := (0 <=? l) && (l <=? 9).

(** [Stream::append_save_options<Output::Jpeg>]. *)
Definition append_save_options_Jpeg (q : Query.t) (options : SaveOptions)
  : SaveOptions :=
  let quality :=
    Query.get_if_int q "q" quality_validator (Cxx.to_int (jpeg_quality config_)) in
  options ++ [("Q", OInt quality);
              ("interlace", OBool (Query.get_bool q "il" false));
              ("optimize_coding", OBool true)].

(** [Stream::append_save_options<Output::Png>]. *)
Definition append_save_options_Png (q : Query.t) (options : SaveOptions)
  : SaveOptions :=
  let level :=
    Query.get_if_int q "l" level_validator (Cxx.to_int (zlib_level config_)) in
  let filter :=
    if Query.get_bool q "af" false
    then "VIPS_FOREIGN_PNG_FILTER_ALL" else "VIPS_FOREIGN_PNG_FILTER_NONE" in
  options ++ [("interlace", OBool (Query.get_bool q "il" false));
              ("compression", OInt level);
              ("filter", OEnum filter)].

(** [Stream::append_save_options<Output::Webp>]. *)
Definition append_save_options_Webp (q : Query.t) (options : SaveOptions)
  : SaveOptions :=
  let quality :=
    Query.get_if_int q "q" quality_validator (Cxx.to_int (webp_quality config_)) in
  options ++ [("lossless", OBool (Query.get_bool q "ll" false));
              ("Q", OInt quality);
              ("effort", OInt (Cxx.to_int (webp_effort config_)))].

(** [Stream::append_save_options<Output::Avif>]. *)
Definition append_save_options_Avif (q : Query.t) (options : SaveOptions)
  : SaveOptions :=
  let quality :=
    Query.get_if_int q "q" quality_validator (Cxx.to_int (avif_quality config_)) in
  options ++ [("Q", OInt quality);
              ("compression", OEnum "VIPS_FOREIGN_HEIF_COMPRESSION_AV1");
              ("effort", OInt (Cxx.to_int (avif_effort config_)))].

(** [Stream::append_save_options<Output::Tiff>]. *)
Definition append_save_options_Tiff (q : Query.t) (options : SaveOptions)
  : SaveOptions :=
  let quality :=
    Query.get_if_int q "q" quality_validator (Cxx.to_int (tiff_quality config_)) in
  options ++ [("Q", OInt quality); ("compression", OString "jpeg")].

(** [Stream::append_save_options<Output::Gif>]. *)
Definition append_save_options_Gif (q : Query.t) (options : SaveOptions)
  : SaveOptions :=
  options ++ [("effort", OInt (Cxx.to_int (gif_effort config_)))].

(** [Stream::append_save_options(output, options)]. *)
Definition append_save_options (output : Output) (q : Query.t)
    (options : SaveOptions) : SaveOptions :=
  match output with
  | Jpeg => append_save_options_Jpeg q options
  | Webp => append_save_options_Webp q options
  | Avif => append_save_options_Avif q options
  | Tiff => append_save_options_Tiff q options
  | Gif => append_save_options_Gif q options
  | _ => append_save_options_Png q options
  end.

(** The validator of the ["delay"] parameter:
    [std::all_of(v.begin(), v.end(), [](int d) { return d >= 0; })]. *)
Definition delay_validator (v : list Z) : bool := forallb (fun d => 0 <=? d) v.

(** [delays.insert(delays.end(), count, value)], [count] a [size_t]:
    [std::length_error] when the vector would exceed its maximal size. *)
Definition vector_insert_end (v : list Z) (count : Z) (value : Z)
  : result (list Z) :=
  if Cxx.vector_max_size - Z.of_nat (length v) <? count
  then Throw std_length_error
  else Ok (v ++ replicate (Z.to_nat count) value).

(** The frame delays [Stream::write_to_target] attaches: [None] when the
    validated list is empty, the list otherwise, a single delay repeated
    [n - 1] more times. *)
Definition resolve_delays (q : Query.t) : result (option (list Z)) :=
  let delays := Query.get_if_vector q "delay" delay_validator [] in
  match delays with
  | [] => Ok None
  | [d] =>
      match vector_insert_end delays
              (Cxx.to_uint64 (Cxx.int_sub (Query.get_int1 q "n") 1)) d with
      | Ok delays => Ok (Some delays)
      | Throw e => Throw e
      end
  | _ => Ok (Some delays)
  end.

(** The head of [Stream::write_to_target]: the working copy with the page
    height, the loop count and the frame delays attached. *)
Definition attach_metadata (q : Query.t) (image : VImage) : result VImage :=
  let copy := image in
  let copy :=
    if 1 <? Query.get_int1 q "n"
    then set_page_height (Query.get_int1 q "page_height") copy else copy in
  let loop := Query.get_int q "loop" (-1) in
  let copy := if 0 <=? loop then set_loop loop copy else copy in
  match resolve_delays q with
  | Ok (Some delays) => Ok (set_delay delays copy)
  | Ok None => Ok copy
  | Throw e => Throw e
  end.

(** The output format [Stream::write_to_target] settles on. *)
Definition resolve_output (q : Query.t) (copy : VImage) : Output :=
  let output := Query.get_Output q "output" Origin in
  let image_type := Query.get_ImageType q "type" ImageType_Unknown in
  if decide (output = Origin)
  then
    if support_alpha_channel image_type || negb (has_alpha copy)
    then to_output image_type
    else Png
  else output.

(** [(config_.savers & static_cast<uintptr_t>(output)) == 0]. *)
Definition saver_disabled (output : Output) : bool :=
  Z.land (savers config_) (Cxx.to_uint64 (Output_value output)) =? 0.

(** The message of the [UnsupportedSaverException]. *)
Definition unsupported_saver (extension : string) : result exception :=
  match Cxx.substr1 extension with
  | None => Throw std_out_of_range
  | Some name =>
      Ok (UnsupportedSaverException
            ("Saving to " +:+ name +:+ " is disabled. Supported savers: " +:+
             supported_savers_string (savers config_)))
  end.

(** [Stream::write_to_target(image, target)].  The calls on the target and
    the save call are recorded as events.  The save call is not guarded:
    the [VError] it throws leaves [write_to_target], after the target was
    set up. *)
Definition write_to_target (image : VImage) : M unit :=
  let* q := get_query in
  let* copy := lift (attach_metadata q image) in
  let output := resolve_output q copy in
  let image_type := Query.get_ImageType q "type" ImageType_Unknown in
  let extension := determine_image_extension output in
  (if saver_disabled output
   then match unsupported_saver extension with
        | Ok e => throw e
        | Throw e => throw e
        end
   else ret tt) >>
  if decide (output = Json)
  then
    let out := image_to_json copy image_type in
    emit (Target_setup extension) >>
    emit (Target_write out) >>
    emit Target_end
  else
    let save_options := append_save_options output q [("strip", OBool true)] in
    emit (Target_setup extension) >>
    emit (setup_timeout_handler copy (process_timeout config_)) >>
    emit (VImage_write_to_target extension copy save_options) >>
    match write_to_target_error extension copy save_options with
    | Some what => throw (VError what)
    | None => ret tt
    end.

End Save.

(** ** Sample data *)

(** One implementation of the helpers, to run the pipeline on examples: a
    coordinate is a pixel count or invalid, the image types are numbered
    [0] (unknown), [1] (JPEG), [2] (PNG), [3] (WebP), [4] (GIF), and each
    output format owns one bit of the saver mask. *)
Module Sample.

Definition output_bit (o : Output) : Z :=
  match o with
  | Origin => 0 | Jpeg => 1 | Png => 2 | Webp => 4
  | Avif => 8 | Tiff => 16 | Gif => 32 | Json => 64
  end.

Definition extension (o : Output) : string :=
  match o with
  | Jpeg => ".jpg" | Webp => ".webp" | Avif => ".avif" | Tiff => ".tiff"
  | Gif => ".gif" | Json => ".json" | _ => ".png"
  end.

Definition savers_string (savers : Z) : string :=
  String.concat ", "
    (omap (fun o => if Z.land savers (output_bit o) =? 0 then None
                    else Some (default EmptyString (Cxx.substr1 (extension o))))
          [Jpeg; Png; Webp; Avif; Tiff; Gif; Json]).

Definition utility : Utility := {|
  Coordinate := option Z;
  Coordinate_INVALID := None;
  to_pixels := fun c _ => default 0 c;
  ImageType_Unknown := 0;
  Output_value := output_bit;
  exif_orientation := fun image => default 0 (meta_orientation image);
  determine_image_type := fun loader =>
    if String.eqb loader "jpegload_source" then 1
    else if String.eqb loader "pngload_source" then 2
    else if String.eqb loader "webpload_source" then 3
    else if String.eqb loader "gifload_source" then 4
    else 0;
  support_alpha_channel := fun t => (t =? 2) || (t =? 3) || (t =? 4);
  to_output := fun t =>
    match t with 1 => Jpeg | 3 => Webp | 4 => Gif | _ => Png end;
  determine_image_extension := extension;
  supported_savers_string := savers_string;
  image_to_json := fun image _ =>
    "{width:" +:+ pretty (width image) +:+
    ",height:" +:+ pretty (height image) +:+ "}";
  write_to_target_error := fun _ image _ =>
    if (width image <=? 0) || (height image <=? 0)
    then Some "image must have positive dimensions" else None
|}.

Definition config : Config :=
  mkConfig 0 127 256 71000000 10 80 6 80 4 80 4 80 7.

Definition with_max_pages (c : Config) (k : Z) : Config :=
  mkConfig (fail_on_error c) (savers c) k (limit_input_pixels c)
           (process_timeout c) (jpeg_quality c) (zlib_level c)
           (webp_quality c) (webp_effort c) (avif_quality c) (avif_effort c)
           (tiff_quality c) (gif_effort c).

Definition with_limit_input_pixels (c : Config) (k : Z) : Config :=
  mkConfig (fail_on_error c) (savers c) (max_pages c) k
           (process_timeout c) (jpeg_quality c) (zlib_level c)
           (webp_quality c) (webp_effort c) (avif_quality c) (avif_effort c)
           (tiff_quality c) (gif_effort c).

Definition with_savers (c : Config) (k : Z) : Config :=
  mkConfig (fail_on_error c) k (max_pages c) (limit_input_pixels c)
           (process_timeout c) (jpeg_quality c) (zlib_level c)
           (webp_quality c) (webp_effort c) (avif_quality c) (avif_effort c)
           (tiff_quality c) (gif_effort c).

(** A still image of the given size and EXIF orientation. *)
Definition still (w h : Z) (orientation : option Z) (alpha : bool) : VImage :=
  mkVImage w h None orientation alpha None None None.

(** An animation, by the width and height of its pages.  A load call with
    [page] and [n] in range returns the [n] pages from [page] on, stacked;
    any other call fails. *)
Definition animation (pages : list (Z * Z)) : Source :=
  mkSource (Some "gifload_source") None None "no known loader"
    (fun _ options =>
       let page := default 0 (opt_page options) in
       let n := default 1 (opt_n options) in
       let frames := take (Z.to_nat n) (drop (Z.to_nat page) pages) in
       if (0 <=? page) && (1 <=? n) && (page + n <=? Z.of_nat (length pages))
       then inr (mkVImage (default 0 (fst <$> head frames))
                          (foldr (fun wh acc => snd wh + acc) 0 frames)
                          (Some (Z.of_nat (length pages))) None true
                          (snd <$> head frames) None None)
       else inl "bad page number").

(** Three pages of 10x10, 20x30 and 30x20 pixels: the last two tie on their
    size. *)
Definition three_pages : Source := animation [(10, 10); (20, 30); (30, 20)].

(** What a load call of one page of [three_pages] returns. *)
Definition page_of_three (w h : Z) : VImage :=
  mkVImage w h (Some 3) None true (Some h) None None.

(** A request for the largest page. *)
Definition largest_page : gmap string (@Value utility) :=
  {["page" := VInt (-1)]}.

(** A request for all the pages from page [1] on. *)
Definition from_page_one : gmap string (@Value utility) :=
  <["n" := VInt (-1)]> {["page" := VInt 1]}.

(** A request for page [1]. *)
Definition page_one : gmap string (@Value utility) :=
  {["page" := VInt 1]}.

(** A request for a rotation close to the largest [int]. *)
Definition huge_rotation : gmap string (@Value utility) :=
  {["ro" := VInt 2147483610]}.

(** A request for 100x50 pixels at a pixel ratio of [dpr]. *)
Definition sized (dpr : Z) : gmap string (@Value utility) :=
  <["dpr" := VFloat (Float.of_int dpr)]>
    (<["h" := @VCoordinate utility (Some 50)]>
       {["w" := @VCoordinate utility (Some 100)]}).

(** A request for WebP output and one for the JSON document, on a JPEG
    input. *)
Definition webp_output : gmap string (@Value utility) :=
  <["n" := VInt 1]> (<["type" := VInt 1]> {["output" := VOutput Webp]}).

Definition json_output : gmap string (@Value utility) :=
  <["n" := VInt 1]> (<["type" := VInt 1]> {["output" := VOutput Json]}).

(** A request that names no output, on an input of type [t]. *)
Definition origin_output (t : Z) : gmap string (@Value utility) :=
  <["n" := VInt 1]> {["type" := VInt t]}.

(** A request with the frame delays [delays], on [n] pages. *)
Definition delayed (delays : list Z) (n : Z) : gmap string (@Value utility) :=
  <["n" := VInt n]> {["delay" := VIntVector delays]}.

End Sample.

(** ** Notions the properties are stated with *)

(** [best_at better sizes t s]: page [t] has size [s], no page of [sizes]
    is better than it, and it is better than every page before it.  With
    [greater] this is the largest page, with [less] the smallest, and among
    pages of equal size the one of lowest index. *)
Definition best_at (better : Z -> Z -> bool) (sizes : list Z) (t s : Z) : Prop :=
  0 <= t
  /\ sizes !! Z.to_nat t = Some s
  /\ (forall j sj, sizes !! j = Some sj -> better sj s = false)
  /\ (forall j sj, Z.of_nat j < t -> sizes !! j = Some sj -> better s sj = true).

Definition first_best (better : Z -> Z -> bool) (sizes : list Z) (t : Z) : Prop :=
  exists s, best_at better sizes t s.

(** The running best of a scan over the sizes of the pages from [i] on. *)
Fixpoint scan (comp : Z -> Z -> bool) (i size target : Z) (sizes : list Z) : Z :=
  match sizes with
  | [] => target
  | page_size :: rest =>
      if comp page_size size
      then scan comp (i + 1) page_size i rest
      else scan comp (i + 1) size target rest
  end.

(** The state after more load calls. *)
Definition add_loads {U : Utility} (st : State) (l : list (string * VOption))
  : State :=
  mkState (query_ st) (loads st ++ l) (events st).

(** [pages_decode source blob loader first pages]: the load calls of the
    scan on the pages [first], [first + 1], ... succeed and return [pages]. *)
Definition pages_decode {U : Utility} (config_ : Config) (source : Source)
    (blob : Blob) (loader : string) (first : Z) (pages : list VImage) : Prop :=
  forall k im, pages !! k = Some im ->
    VImage_call source loader
                (set_input blob (page_options config_ (first + Z.of_nat k)))
    = inr im.

(** The load calls of a scan over [count] pages from [first] on. *)
Definition scan_loads {U : Utility} (config_ : Config) (blob : Blob)
    (loader : string) (first count : Z) : list (string * VOption) :=
  map (fun j => (loader, set_input blob (page_options config_ j)))
      (seqZ first count).

(** The state once the image type found for [loader] is stored. *)
Definition with_type {U : Utility} (st : State) (loader : string) : State :=
  mkState (Query.update (query_ st) "type" (VInt (determine_image_type loader)))
          (loads st) (events st).

(** The first load call of a request in state [st]. *)
Definition first_load {U : Utility} (config_ : Config) (st : State)
    (loader : string) (blob : Blob) : string * VOption :=
  (loader, set_input blob (first_options config_ (query_ (with_type st loader)))).

(** The orientation table as the spec gives it: what an EXIF code adds to
    the rotation, and whether it sets the flip and the flop flag. *)
Definition exif_rotation (exif : Z) : Z :=
  match exif with
  | 3 | 4 => 180
  | 5 | 8 => 270
  | 6 | 7 => 90
  | _ => 0
  end.

Definition exif_flip (exif : Z) : bool :=
  match exif with 5 | 7 => true | _ => false end.

Definition exif_flop (exif : Z) : bool :=
  match exif with 2 | 4 => true | _ => false end.

(** A pixel ratio as the number it is: the fraction
    [ratio_num / ratio_den]. *)
Record ratio : Type := mkRatio { ratio_num : Z; ratio_den : positive }.

(** The number a stored [float] denotes; [None] for an infinity and for a
    NaN, which are no numbers of [0, 8]. *)
Definition float_ratio (x : Float.float) : option ratio :=
  match x with
  | S754_zero _ => Some (mkRatio 0 1)
  | S754_finite s m e =>
      Some (if 0 <=? e then mkRatio (cond_Zopp s (Zpos m * 2 ^ e)) 1
            else mkRatio (cond_Zopp s (Zpos m)) (Z.to_pos (2 ^ (- e))))
  | _ => None
  end.

(** [0 <= r <= 8]. *)
Definition ratio_in_range (r : ratio) : bool :=
  (0 <=? ratio_num r) && (ratio_num r <=? 8 * Zpos (ratio_den r)).

(** The integer nearest to [n / d], a half going away from zero. *)
Definition nearest (n : Z) (d : positive) : Z :=
  if 0 <=? n then (2 * n + Zpos d) / (2 * Zpos d)
  else - ((2 * (- n) + Zpos d) / (2 * Zpos d)).

(** A dimension scaled by the pixel ratio and rounded to the nearest
    integer, as numbers: no width of machine integers or of floats enters
    here. *)
Definition scaled (d : Z) (r : ratio) : Z :=
  nearest (d * ratio_num r) (ratio_den r).

(** The target dimensions as the spec describes them, from the resolved
    coordinates: scaled if and only if the pixel ratio is in [0, 8], then
    swapped if and only if the EXIF code is above 4 and [precrop] is not
    set, then clamped to [0, VIPS_MAX_COORD]. *)
Definition target_dimensions (target_width target_height : Z)
    (pixel_ratio : option ratio) (exif : Z) (precrop : bool) : Z * Z :=
  let '(w, h) :=
    match pixel_ratio with
    | Some r =>
        if ratio_in_range r
        then (scaled target_width r, scaled target_height r)
        else (target_width, target_height)
    | None => (target_width, target_height)
    end in
  let '(w, h) := if (4 <? exif) && negb precrop then (h, w) else (w, h) in
  (Z.max 0 (Z.min w VIPS_MAX_COORD), Z.max 0 (Z.min h VIPS_MAX_COORD)).

(** The dimensions of a decoded image are non-negative [int]s; its area is
    then [height * width]. *)
Definition valid_dimensions (image : VImage) : Prop :=
  0 <= width image <= Cxx.INT_MAX /\ 0 <= height image <= Cxx.INT_MAX.

Definition area (image : VImage) : Z := height image * width image.

(** ** Reference counts and live handles *)

(** The reference count of [p], zero when [p] is not counted. *)
Definition refcount (rc : gmap VipsBlob Z) (p : VipsBlob) : Z :=
  default 0 (rc !! p).

(** [1] when the handle points to [p], [0] otherwise. *)
Definition points_to (b : Blob) (p : VipsBlob) : Z :=
  if decide (blob_ b = Some p) then 1 else 0.

(** How many of the handles point to [p]. *)
Definition handles_on (handles : list Blob) (p : VipsBlob) : Z :=
  foldr (fun b acc => points_to b p + acc) 0 handles.

(** The counts are those of the live handles: every blob is counted once per
    handle that points to it. *)
Definition counts_handles (handles : list Blob) (rc : gmap VipsBlob Z) : Prop :=
  forall p, refcount rc p = handles_on handles p.

(** ** The error response of [ngx_weserv_error_chain] *)

Module Nginx.

Definition NGX_HTTP_MOVED_TEMPORARILY : Z := 302.

(** [api::utils::Status], by the two methods the function calls. *)
Record Status : Type := mkStatus {
  http_code : Z;
  to_json : string
}.

(** The fields of [r->headers_out] the function writes. *)
Record headers_out_t : Type := mkHeadersOut {
  status : Z;
  content_type_len : Z;
  content_type : string;
  content_type_lowcase : option string;
  content_length_n : Z
}.

(** What the function sees of the request: the answer of [ngx_http_arg] for
    an argument name ([None] when it does not return [NGX_OK]), the output
    headers, and the redirect targets handed to [set_location_header] so
    far. *)
Record Request : Type := mkRequest {
  ngx_http_arg : string -> option string;
  headers_out : headers_out_t;
  location_calls : list string
}.

(** The answers of the functions the sources at hand do not define, on one
    request: what [parse_url] leaves in its output string (empty when it
    leaves the null string), whether [set_location_header] returns [NGX_OK],
    whether the two pool allocations succeed. *)
Record Env : Type := mkEnv {
  parse_url : string -> string;
  set_location_header : string -> bool;
  ngx_create_temp_buf : Z -> bool;
  ngx_alloc_chain_link : bool
}.

Record ngx_buf_t : Type := mkBuf {
  buf_data : string;
  last_buf : bool;
  last_in_chain : bool
}.

(** A chain link: its buffer, and the links after it. *)
Record ngx_chain_t : Type := mkChain {
  buf : ngx_buf_t;
  next : list ngx_buf_t
}.

(** [redirect_uri.len != 1 || redirect_uri.data[0] != '1']. *)
Definition not_literal_one (redirect_uri : string) : bool :=
  negb (Z.of_nat (String.length redirect_uri) =? 1)
  || negb (match String.get 0 redirect_uri with
           | Some c => Ascii.eqb c "1"
           | None => false
           end).

(** The redirect parameter: ["default"], or else ["errorredirect"]. *)
Definition redirect_arg (r : Request) : option string :=
  match ngx_http_arg r "default" with
  | Some redirect_uri => Some redirect_uri
  | None => ngx_http_arg r "errorredirect"
  end.

(** [ngx_weserv_error_chain(r, upstream_ctx, status)].  [upstream_ctx] is
    [None] for a null context, [Some None] for a context whose request is
    null, [Some (Some url)] otherwise.  The result is [None] for
    [NGX_CHAIN_ERROR]. *)
Definition ngx_weserv_error_chain (env : Env) (r : Request)
    (upstream_ctx : option (option string)) (st : Status)
  : option ngx_chain_t * Request :=
  let http_status := http_code st in
  let '(http_status, r) :=
    match redirect_arg r with
    | Some redirect_uri =>
        let parsed_redirect :=
          if not_literal_one redirect_uri
          then parse_url env redirect_uri
          else match upstream_ctx with
               | Some (Some url) => url
               | _ => EmptyString
               end in
        if 0 <? Z.of_nat (String.length parsed_redirect)
        then
          let r := mkRequest (ngx_http_arg r) (headers_out r)
                             (location_calls r ++ [parsed_redirect]) in
          if set_location_header env parsed_redirect
          then (NGX_HTTP_MOVED_TEMPORARILY, r)
          else (http_status, r)
        else (http_status, r)
    | None => (http_status, r)
    end in
  let error := to_json st in
  let content_length := Z.of_nat (String.length error) in
  if negb (ngx_create_temp_buf env content_length) then (None, r)
  else
    let b := mkBuf error true true in
    let r := mkRequest (ngx_http_arg r)
               (mkHeadersOut http_status
                  (Z.of_nat (String.length "application/json"))
                  "application/json" None content_length)
               (location_calls r) in
    if negb (ngx_alloc_chain_link env) then (None, r)
    else (Some (mkChain b []), r).

End Nginx.

(** ** More sample data *)

Module Inputs.

(** An input no loader is found for. *)
Definition unknown : Source :=
  mkSource None None None "no known loader" (fun _ _ => inl "unreachable").

(** An input whose loader is found but whose data does not decode. *)
Definition corrupt : Source :=
  mkSource (Some "jpegload_source") None None "no known loader"
           (fun _ _ => inl "premature end of data").

(** A still image of 640x480 pixels. *)
Definition photo : Source :=
  mkSource (Some "jpegload_source") None None "no known loader"
           (fun _ options =>
              match opt_page options, opt_n options with
              | None, None => inr (Sample.still 640 480 None false)
              | _, _ => inl "bad page number"
              end).

(** An animation of three pages whose third page does not decode on its
    own. *)
Definition broken_third : Source :=
  mkSource (Some "gifload_source") None None "no known loader"
    (fun loader options =>
       match opt_page options with
       | Some 2 => inl "bad frame"
       | _ => VImage_call Sample.three_pages loader options
       end).

(** A request with an empty parameter store. *)
Definition plain : @State Sample.utility := mkState ∅ [] [].

(** A request for page 2 and 5 pages, with a loop count. *)
Definition paged : gmap string (@Value Sample.utility) :=
  <["loop" := VInt 0]> (<["n" := VInt 5]> {["page" := VInt 2]}).

(** An error response environment where everything succeeds, and a request
    with the given arguments. *)
Definition env : Nginx.Env :=
  Nginx.mkEnv (fun uri => uri) (fun _ => true) (fun _ => true) true.

Definition request (args : list (string * string)) : Nginx.Request :=
  Nginx.mkRequest
    (fun name => snd <$> list_find (fun kv => bool_decide (fst kv = name)) args
                 ≫= fun kv => Some (snd kv))
    (Nginx.mkHeadersOut 0 0 EmptyString None 0) [].

Definition not_found : Nginx.Status :=
  Nginx.mkStatus 404 "{status:error,code:404}".

End Inputs.

(** ** Load calls of one request *)

(** A load call of the request: made with [loader], on the blob when there
    is one, and with the configured fail flag. *)
Definition load_of {U : Utility} (config_ : Config) (loader : string)
    (blob : Blob) (call : string * VOption) : Prop :=
  fst call = loader
  /\ opt_buffer (snd call) = blob_ blob
  /\ opt_fail (snd call) = (fail_on_error config_ =? 1).

(** [st'] is [st] after more load calls of the request, and nothing else:
    same parameter store, same events. *)
Definition loads_more {U : Utility} (config_ : Config) (loader : string)
    (blob : Blob) (st st' : State) : Prop :=
  query_ st' = query_ st
  /\ events st' = events st
  /\ exists l, loads st' = loads st ++ l
               /\ Forall (load_of config_ loader blob) l.

(** * Properties *)

(** ** Machine arithmetic *)

Lemma to_int_id (z : Z) :
  Cxx.INT_MIN <= z <= Cxx.INT_MAX -> Cxx.to_int z = z.
Proof.
  unfold Cxx.to_int, Cxx.INT_MIN, Cxx.INT_MAX. intros Hz.
  rewrite Z.mod_small by lia. lia.
Qed.

Lemma in_int_spec (z : Z) :
  Cxx.in_int z = true <-> Cxx.INT_MIN <= z <= Cxx.INT_MAX.
Proof. unfold Cxx.in_int. rewrite andb_true_iff, !Z.leb_le. tauto. Qed.

Lemma uint64_mul_exact (a b : Z) :
  0 <= a <= Cxx.INT_MAX -> 0 <= b <= Cxx.INT_MAX -> Cxx.uint64_mul a b = a * b.
Proof.
  unfold Cxx.uint64_mul, Cxx.to_uint64, Cxx.INT_MAX. intros Ha Hb.
  rewrite (Z.mod_small a), (Z.mod_small b) by lia.
  apply Z.mod_small. nia.
Qed.

Lemma clamp_range (v lo hi : Z) : lo <= hi -> lo <= Cxx.clamp v lo hi <= hi.
Proof.
  unfold Cxx.clamp. intros H.
  destruct (Z.ltb_spec v lo); [lia |]. destruct (Z.ltb_spec hi v); lia.
Qed.

(** ** The buffer handle *)

(** A default-constructed handle is null, and reference operations on a null
    handle do nothing. *)
Lemma Blob_default_null : Blob_is_null Blob_default = true.
Proof. reflexivity. Qed.

Lemma reference_null (rc : gmap VipsBlob Z) :
  reference Blob_default rc = rc /\ unreference Blob_default rc = rc.
Proof. by split. Qed.

(** Assigning a handle to itself changes nothing. *)
Lemma Blob_assign_self (a : Blob) (rc : gmap VipsBlob Z) :
  Blob_assign a a rc = (a, rc).
Proof. unfold Blob_assign. by destruct (decide (blob_ a = blob_ a)). Qed.

(** A copy followed by the destruction of the copy leaves the count as it
    was. *)
Lemma Blob_copy_unreference (a : Blob) (rc : gmap VipsBlob Z) (p : VipsBlob) (k : Z) :
  blob_ a = Some p -> rc !! p = Some k ->
  let '(b, rc') := Blob_copy a rc in
  blob_ b = Some p /\ rc' !! p = Some (k + 1)
  /\ unreference b rc' !! p = Some k.
Proof.
  intros Ha Hk. unfold Blob_copy, reference, unreference. simpl.
  rewrite Ha, Hk. simpl. repeat split.
  - by rewrite lookup_insert_eq.
  - rewrite !lookup_insert_eq. simpl. f_equal. lia.
Qed.

(** ** The parameter store *)

Section StoreFacts.
Context {U : Utility}.
Implicit Types q : gmap string Value.

Lemma get_int_update_eq q key v d :
  Query.get_int (Query.update q key (VInt v)) key d = v.
Proof. unfold Query.get_int, Query.update. by rewrite lookup_insert_eq. Qed.

Lemma get_int_update_ne q key key' v d :
  key' <> key ->
  Query.get_int (Query.update q key' v) key d = Query.get_int q key d.
Proof.
  intros Hne. unfold Query.get_int, Query.update.
  by rewrite lookup_insert_ne.
Qed.

Lemma get_bool_update_eq q key b d :
  Query.get_bool (Query.update q key (VBool b)) key d = b.
Proof. unfold Query.get_bool, Query.update. by rewrite lookup_insert_eq. Qed.

Lemma get_bool_update_ne q key key' v d :
  key' <> key ->
  Query.get_bool (Query.update q key' v) key d = Query.get_bool q key d.
Proof.
  intros Hne. unfold Query.get_bool, Query.update.
  by rewrite lookup_insert_ne.
Qed.

Lemma get_float_update_ne q key key' v d :
  key' <> key ->
  Query.get_float (Query.update q key' v) key d = Query.get_float q key d.
Proof.
  intros Hne. unfold Query.get_float, Query.update.
  by rewrite lookup_insert_ne.
Qed.

Lemma get_Coordinate_update_ne q key key' v d :
  key' <> key ->
  Query.get_Coordinate (Query.update q key' v) key d
  = Query.get_Coordinate q key d.
Proof.
  intros Hne. unfold Query.get_Coordinate, Query.update.
  by rewrite lookup_insert_ne.
Qed.

Lemma get_if_int_requested q key validator d v :
  q !! key = Some (VInt v) ->
  Query.get_if_int q key validator d = if validator v then v else d.
Proof. intros H. unfold Query.get_if_int. by rewrite H. Qed.

End StoreFacts.

(** ** Page resolution *)

Section PageOptions.
Context {U : Utility}.
Implicit Types q : gmap string Value.

(** C2.  On an input of [P > 1] pages: when the request asks for a page [p]
    in [0 .. P-1] and for [n] pages with [n] in [1 .. P-p], the resolved
    pair is [(n, p)], unchanged; when it asks for a non-negative page [p]
    the validator accepts and for [n = -1], the resolved [n] is [P - p]. *)
Theorem get_page_load_options_valid q (P p : Z) :
  1 < P -> P <= Cxx.INT_MAX ->
  q !! "page" = Some (VInt p) ->
  (0 <= p <= P - 1 ->
   forall n, 1 <= n <= P - p -> q !! "n" = Some (VInt n) ->
             get_page_load_options q P = (n, p))
  /\ (0 <= p <= P -> q !! "n" = Some (VInt (-1)) ->
      get_page_load_options q P = (P - p, p)).
Proof.
  intros HP Hmax Hpage.
  assert (Hhead : 0 <= p <= P ->
             get_page_load_options q P
             = (let n := Query.get_if_int q "n" (n_validator P) 1 in
                ((if n =? -1 then Cxx.int_sub P p else n), p))).
  { intros Hp. unfold get_page_load_options.
    destruct (Z.eqb_spec P 1) as [->|_]; [lia |].
    rewrite (get_if_int_requested _ _ _ _ p Hpage).
    unfold page_validator.
    destruct (Z.eqb_spec p (-1)); [lia |]. destruct (Z.eqb_spec p (-2)); [lia |].
    destruct (Z.leb_spec 0 p); [| lia]. destruct (Z.leb_spec p P); [| lia].
    simpl. destruct (Z.eqb_spec p (-1)); [lia |].
    destruct (Z.eqb_spec p (-2)); [lia |]. reflexivity. }
  split.
  - intros Hp n Hn Hreq. rewrite Hhead by lia. cbv zeta.
    rewrite (get_if_int_requested _ _ _ _ n Hreq). unfold n_validator.
    destruct (Z.eqb_spec n (-1)); [lia |].
    destruct (Z.leb_spec 1 n); [| lia]. destruct (Z.leb_spec n P); [| lia].
    simpl. destruct (Z.eqb_spec n (-1)); [lia | reflexivity].
  - intros Hp Hreq. rewrite Hhead by lia. cbv zeta.
    rewrite (get_if_int_requested _ _ _ _ (-1) Hreq). unfold n_validator.
    simpl. unfold Cxx.int_sub. rewrite to_int_id; [reflexivity |].
    unfold Cxx.INT_MIN, Cxx.INT_MAX in *. lia.
Qed.

End PageOptions.

Lemma get_page_load_options_valid_witness :
  @get_page_load_options Sample.utility
    (<["n" := VInt 2]> {["page" := VInt 1]}) 3 = (2, 1)
  /\ @get_page_load_options Sample.utility
       (<["n" := VInt (-1)]> {["page" := VInt 1]}) 3 = (3 - 1, 1).
Proof.
  split.
  - refine (proj1 (@get_page_load_options_valid Sample.utility _ 3 1 _ _ _)
                  _ 2 _ _);
      try reflexivity; unfold Cxx.INT_MAX; lia.
  - refine (proj2 (@get_page_load_options_valid Sample.utility _ 3 1 _ _ _)
                  _ _);
      try reflexivity; unfold Cxx.INT_MAX; lia.
Defined.

(** ** The scan for the largest or smallest page *)

Section Scan.
Variable better : Z -> Z -> bool.
Hypothesis better_irrefl : forall a, better a a = false.
Hypothesis better_keeps : forall a b c,
  better a b = true -> better c b = false -> better c a = false.
Hypothesis better_beats : forall a b c,
  better a b = true -> better c b = false -> better a c = true.

Lemma best_at_first (s : Z) : best_at better [s] 0 s.
Proof.
  repeat split; [lia | |].
  - intros [|j] sj Hj; simpl in Hj; [| by destruct j].
    injection Hj as <-. apply better_irrefl.
  - intros j sj Hlt _. lia.
Qed.

Lemma best_at_replace (prefix : list Z) (t s page_size : Z) :
  best_at better prefix t s -> better page_size s = true ->
  best_at better (prefix ++ [page_size]) (Z.of_nat (length prefix)) page_size.
Proof.
  intros (Ht & Hs & Hall & Hbefore) Hb. repeat split.
  - lia.
  - rewrite Nat2Z.id. by rewrite lookup_app_r, Nat.sub_diag.
  - intros j sj Hj. apply lookup_app_Some in Hj as [Hj | [Hlen Hj]].
    + eapply better_keeps; [exact Hb | eauto].
    + apply list_lookup_singleton_Some in Hj as [_ <-]. apply better_irrefl.
  - intros j sj Hlt Hj. apply lookup_app_Some in Hj as [Hj | [Hlen Hj]]; [| lia].
    eapply better_beats; [exact Hb | eauto].
Qed.

Lemma best_at_keep (prefix : list Z) (t s page_size : Z) :
  best_at better prefix t s -> better page_size s = false ->
  best_at better (prefix ++ [page_size]) t s.
Proof.
  intros (Ht & Hs & Hall & Hbefore) Hb. repeat split.
  - lia.
  - by apply lookup_app_l_Some.
  - intros j sj Hj. apply lookup_app_Some in Hj as [Hj | [Hlen Hj]]; [eauto |].
    by apply list_lookup_singleton_Some in Hj as [_ <-].
  - intros j sj Hlt Hj. apply lookup_app_Some in Hj as [Hj | [Hlen Hj]]; [eauto |].
    apply lookup_lt_Some in Hs. lia.
Qed.

Lemma scan_best_at (sizes prefix : list Z) (t s : Z) :
  best_at better prefix t s ->
  first_best better (prefix ++ sizes)
             (scan better (Z.of_nat (length prefix)) s t sizes).
Proof.
  revert prefix t s.
  induction sizes as [| page_size rest IH]; intros prefix t s Hbest; simpl.
  - rewrite app_nil_r. by exists s.
  - replace (prefix ++ page_size :: rest) with ((prefix ++ [page_size]) ++ rest)
      by (by rewrite <- app_assoc).
    replace (Z.of_nat (length prefix) + 1)
      with (Z.of_nat (length (prefix ++ [page_size])))
      by (rewrite length_app; simpl; lia).
    destruct (better page_size s) eqn:Hb.
    + apply IH. by eapply best_at_replace.
    + apply IH. by apply best_at_keep.
Qed.

(** The scan started on page [0] ends on the first best page. *)
Lemma scan_first_best (s0 : Z) (sizes : list Z) :
  first_best better (s0 :: sizes) (scan better 1 s0 0 sizes).
Proof. apply (scan_best_at sizes [s0] 0 s0), best_at_first. Qed.

End Scan.

Lemma scan_greater (s0 : Z) (sizes : list Z) :
  first_best greater (s0 :: sizes) (scan greater 1 s0 0 sizes).
Proof.
  apply scan_first_best; unfold greater; intros;
    repeat match goal with
           | H : (_ <? _) = _ |- _ => first [apply Z.ltb_lt in H | apply Z.ltb_ge in H]
           end; first [apply Z.ltb_lt | apply Z.ltb_ge]; lia.
Qed.

Lemma scan_less (s0 : Z) (sizes : list Z) :
  first_best less (s0 :: sizes) (scan less 1 s0 0 sizes).
Proof.
  apply scan_first_best; unfold less; intros;
    repeat match goal with
           | H : (_ <? _) = _ |- _ => first [apply Z.ltb_lt in H | apply Z.ltb_ge in H]
           end; first [apply Z.ltb_lt | apply Z.ltb_ge]; lia.
Qed.

(** With [greater], the first best page is a largest page, strictly larger
    than every page before it; with [less], a smallest one, strictly
    smaller than every page before it. *)
Lemma first_best_greater (sizes : list Z) (t : Z) :
  first_best greater sizes t <->
  exists s, 0 <= t /\ sizes !! Z.to_nat t = Some s
    /\ (forall j sj, sizes !! j = Some sj -> sj <= s)
    /\ (forall j sj, Z.of_nat j < t -> sizes !! j = Some sj -> sj < s).
Proof.
  unfold first_best, best_at, greater.
  split; intros (s & Ht & Hs & Hall & Hbefore); exists s; repeat split; try done.
  - intros j sj Hj. apply Z.ltb_ge. eauto.
  - intros j sj Hlt Hj. apply Z.ltb_lt. eauto.
  - intros j sj Hj. apply Z.ltb_ge. eauto.
  - intros j sj Hlt Hj. apply Z.ltb_lt. eauto.
Qed.

Lemma first_best_less (sizes : list Z) (t : Z) :
  first_best less sizes t <->
  exists s, 0 <= t /\ sizes !! Z.to_nat t = Some s
    /\ (forall j sj, sizes !! j = Some sj -> s <= sj)
    /\ (forall j sj, Z.of_nat j < t -> sizes !! j = Some sj -> s < sj).
Proof.
  unfold first_best, best_at, less.
  split; intros (s & Ht & Hs & Hall & Hbefore); exists s; repeat split; try done.
  - intros j sj Hj. apply Z.ltb_ge. eauto.
  - intros j sj Hlt Hj. apply Z.ltb_lt. eauto.
  - intros j sj Hj. apply Z.ltb_ge. eauto.
  - intros j sj Hlt Hj. apply Z.ltb_lt. eauto.
Qed.

(** ** Running the decode pipeline *)

Section Decode.
Context {U : Utility}.
Variable config_ : Config.
Implicit Types q : gmap string Value.

Lemma new_from_source_with_run source blob loader options st :
  new_from_source_with source blob loader options st
  = (match VImage_call source loader (set_input blob options) with
     | inr out_image => Ok out_image
     | inl what => Throw (UnreadableImageException what)
     end,
     add_loads st [(loader, set_input blob options)]).
Proof.
  unfold new_from_source_with, bind, log_load, add_loads. simpl.
  by destruct (VImage_call source loader (set_input blob options)).
Qed.

Lemma add_loads_nil st : add_loads st [] = st.
Proof. destruct st. unfold add_loads. simpl. by rewrite app_nil_r. Qed.

Lemma add_loads_app st l1 l2 :
  add_loads (add_loads st l1) l2 = add_loads st (l1 ++ l2).
Proof. unfold add_loads. simpl. by rewrite app_assoc. Qed.

(** The loop of [resolve_page] on pages that decode: it makes one load call
    per page and returns what the scan of their sizes returns. *)
Lemma resolve_page_from_run source blob loader comp pages :
  forall i size target st,
  pages_decode config_ source blob loader i pages ->
  resolve_page_from config_ source blob loader comp (length pages) i size target st
  = (Ok (scan comp i size target (map pixel_size pages)),
     add_loads st (scan_loads config_ blob loader i (Z.of_nat (length pages)))).
Proof.
  induction pages as [| im rest IH]; intros i size target st Hdec.
  - simpl. unfold ret, scan_loads. simpl. by rewrite add_loads_nil.
  - cbn [resolve_page_from length map scan]. unfold bind at 1.
    rewrite new_from_source_with_run.
    assert (Him : VImage_call source loader (set_input blob (page_options config_ i))
                  = inr im).
    { specialize (Hdec 0%nat im eq_refl). by rewrite Z.add_0_r in Hdec. }
    rewrite Him.
    assert (Hrest : pages_decode config_ source blob loader (i + 1) rest).
    { intros k im' Hk. specialize (Hdec (S k) im' Hk).
      rewrite <- Hdec. do 3 f_equal. lia. }
    assert (Hloads : forall st',
               add_loads (add_loads st' [(loader, set_input blob (page_options config_ i))])
                         (scan_loads config_ blob loader (i + 1) (Z.of_nat (length rest)))
               = add_loads st' (scan_loads config_ blob loader i
                                           (Z.of_nat (S (length rest))))).
    { intros st'. rewrite add_loads_app. f_equal. unfold scan_loads.
      rewrite Nat2Z.inj_succ, (seqZ_cons i) by lia.
      rewrite Z.pred_succ. by replace (Z.succ i) with (i + 1) by lia. }
    destruct (comp (pixel_size im) size); rewrite IH by exact Hrest;
      by rewrite Hloads.
Qed.

Lemma resolve_page_run source blob loader comp image P pages st :
  Z.of_nat (length pages) = P - 1 ->
  pages_decode config_ source blob loader 1 pages ->
  resolve_page config_ image P source blob loader comp st
  = (Ok (scan comp 1 (pixel_size image) 0 (map pixel_size pages)),
     add_loads st (scan_loads config_ blob loader 1 (P - 1))).
Proof.
  intros Hlen Hdec. unfold resolve_page.
  replace (Z.to_nat (P - 1)) with (length pages) by lia.
  rewrite (resolve_page_from_run _ _ _ _ _ _ _ _ _ Hdec). by rewrite Hlen.
Qed.

(** [resolve_query] leaves the parameters it does not resolve alone. *)
Lemma resolve_query_lookup_other image q key :
  key <> "angle" -> key <> "flip" -> key <> "flop" -> key <> "w" ->
  key <> "h" -> key <> "input_width" -> key <> "input_height" ->
  resolve_query image q !! key = q !! key.
Proof.
  intros. unfold resolve_query.
  destruct (apply_exif_orientation _ _ _ _) as [[rotate flip] flop].
  destruct (pixel_ratio_in_range _); destruct (_ && _);
    unfold Query.update; by rewrite !lookup_insert_ne.
Qed.

End Decode.

Section Pipeline.
Context {U : Utility}.
Variable config_ : Config.
Implicit Types q : gmap string Value.

Lemma pixel_size_area (images : list VImage) :
  Forall valid_dimensions images -> map pixel_size images = map area images.
Proof.
  induction 1 as [| image images [Hw Hh] _ IH]; [done |].
  simpl. rewrite IH. f_equal. unfold pixel_size, area.
  by apply uint64_mul_exact.
Qed.

(** A request for the largest or the smallest page resolves to
    [(1, page)], whatever the page count. *)
Lemma get_page_load_options_extreme q (P page : Z) :
  P <> 1 -> page = -1 \/ page = -2 ->
  q !! "page" = Some (VInt page) ->
  get_page_load_options q P = (1, page).
Proof.
  intros HP Hpage Hreq. unfold get_page_load_options.
  destruct (Z.eqb_spec P 1); [done |].
  rewrite (get_if_int_requested _ _ _ _ page Hreq).
  by destruct Hpage as [-> | ->].
Qed.

(** After the first load, a request for the largest or smallest page scans
    the pages [1 .. P-1], reloads with [n = 1] and the first best page, and
    stores them. *)
Lemma select_and_resolve_extreme_page
    source blob loader access_method q image (P : Z) pages page comp st r st' :
  (page = -1 /\ comp = greater) \/ (page = -2 /\ comp = less) ->
  meta_n_pages image = Some P -> 1 < P ->
  q !! "page" = Some (VInt page) ->
  Z.of_nat (length pages) = P - 1 ->
  pages_decode config_ source blob loader 1 pages ->
  select_and_resolve config_ source blob loader access_method q image st
  = (r, st') ->
  exists t,
    first_best comp (map pixel_size (image :: pages)) t
    /\ loads st'
       = loads st ++ scan_loads config_ blob loader 1 (P - 1)
         ++ [(loader, set_input blob (reload_options config_ access_method 1 t))]
    /\ (forall im, r = Ok im ->
          query_ st' !! "n" = Some (VInt 1)
          /\ query_ st' !! "page" = Some (VInt t)).
Proof.
  intros Hsel Hmeta HP Hreq Hlen Hdec Hrun.
  exists (scan comp 1 (pixel_size image) 0 (map pixel_size pages)).
  split.
  { destruct Hsel as [[_ ->] | [_ ->]]; [apply scan_greater | apply scan_less]. }
  revert Hrun. unfold select_and_resolve, n_pages_of. rewrite Hmeta.
  rewrite (get_page_load_options_extreme q P page) by (try done; lia).
  unfold load_pages. cbn [Z.eqb negb orb Pos.eqb].
  assert (Hlimit : (0 <? max_pages config_) && (max_pages config_ <? 1) = false).
  { destruct (Z.ltb_spec 0 (max_pages config_)); [| done].
    destruct (Z.ltb_spec (max_pages config_) 1); [lia | done]. }
  rewrite Hlimit.
  assert (Hscan :
    (if page =? -1
     then resolve_page config_ image P source blob loader greater
     else if page =? -2
          then resolve_page config_ image P source blob loader less
          else ret page) st
    = (Ok (scan comp 1 (pixel_size image) 0 (map pixel_size pages)),
       add_loads st (scan_loads config_ blob loader 1 (P - 1)))).
  { destruct Hsel as [[-> ->] | [-> ->]]; simpl;
      by apply resolve_page_run. }
  assert (Hpage0 : negb (page =? 0) = true).
  { by destruct Hsel as [[-> _] | [-> _]]. }
  unfold bind at 1 2 3. unfold ret at 1. cbn beta iota.
  rewrite Hpage0, Hscan. cbn beta iota. unfold bind at 1.
  rewrite new_from_source_with_run.
  destruct (VImage_call source loader _) as [what | image'].
  - intros [= <- <-]. split; [| done].
    simpl. by rewrite <- app_assoc.
  - unfold bind, ret, check_input_pixels, query_update, modify_query, throw.
    cbn beta iota.
    destruct ((0 <? limit_input_pixels config_) && _).
    + intros [= <- <-]. split; [| done]. simpl. by rewrite <- app_assoc.
    + intros [= <- <-]. split; [simpl; by rewrite <- app_assoc |].
      intros _ _. simpl.
      rewrite !resolve_query_lookup_other by done.
      unfold Query.update. split.
      * rewrite lookup_insert_ne by done. by rewrite lookup_insert_eq.
      * by rewrite lookup_insert_eq.
Qed.

(** [new_from_source] up to its first load call. *)
Lemma new_from_source_run source st loader blob image :
  find_loader source st = (Ok (loader, blob), st) ->
  VImage_call source loader (snd (first_load config_ st loader blob)) = inr image ->
  new_from_source config_ source st
  = select_and_resolve config_ source blob loader
      (access_method_of (query_ (with_type st loader)))
      (query_ (with_type st loader)) image
      (add_loads (with_type st loader) [first_load config_ st loader blob]).
Proof.
  intros Hfind Hload. unfold new_from_source.
  unfold bind at 1. rewrite Hfind.
  unfold bind at 1. unfold query_update at 1.
  unfold bind at 1. unfold get_query at 1.
  unfold bind at 1. rewrite new_from_source_with_run.
  unfold first_load, with_type in *. simpl in *. by rewrite Hload.
Qed.

(** C3.  On an input of [P > 1] pages that all decode, a request for
    [page = -1] (resp. [-2]) resolves to [n = 1] and to the page [t] whose
    [height * width] is greatest (resp. least) over the pages [0 .. P-1],
    the lowest index winning a tie ([first_best]): after the first load the
    scan loads the pages [1 .. P-1], the reload is made with [n = 1] and
    [page = t], and these are the values the parameter store ends with. *)
Theorem new_from_source_extreme_page
    source st loader blob image (P : Z) pages page comp r st' :
  (page = -1 /\ comp = greater) \/ (page = -2 /\ comp = less) ->
  find_loader source st = (Ok (loader, blob), st) ->
  VImage_call source loader (snd (first_load config_ st loader blob)) = inr image ->
  meta_n_pages image = Some P -> 1 < P ->
  query_ st !! "page" = Some (VInt page) ->
  Z.of_nat (length pages) = P - 1 ->
  pages_decode config_ source blob loader 1 pages ->
  Forall valid_dimensions (image :: pages) ->
  new_from_source config_ source st = (r, st') ->
  exists t,
    first_best comp (map area (image :: pages)) t
    /\ loads st'
       = loads st ++ [first_load config_ st loader blob]
         ++ scan_loads config_ blob loader 1 (P - 1)
         ++ [(loader,
              set_input blob
                (reload_options config_
                   (access_method_of (query_ (with_type st loader))) 1 t))]
    /\ (forall im, r = Ok im ->
          query_ st' !! "n" = Some (VInt 1)
          /\ query_ st' !! "page" = Some (VInt t)).
Proof.
  intros Hsel Hfind Hload Hmeta HP Hreq Hlen Hdec Hvalid Hrun.
  rewrite <- (pixel_size_area _ Hvalid).
  rewrite (new_from_source_run _ _ _ _ _ Hfind Hload) in Hrun.
  assert (Hreq' : query_ (with_type st loader) !! "page" = Some (VInt page)).
  { simpl. unfold Query.update. by rewrite lookup_insert_ne. }
  destruct (select_and_resolve_extreme_page _ _ _ _ _ _ _ _ _ _ _ _ _
              Hsel Hmeta HP Hreq' Hlen Hdec Hrun)
    as (t & Hbest & Hloads & Hstored).
  exists t. split; [done |]. split; [| done].
  rewrite Hloads. simpl. by rewrite <- app_assoc.
Qed.

End Pipeline.

Lemma new_from_source_extreme_page_witness :
  let st := @mkState Sample.utility Sample.largest_page [] [] in
  let run := @new_from_source Sample.utility Sample.config Sample.three_pages st in
  exists t,
    first_best greater
      (map area
         (Sample.page_of_three 10 10
          :: [Sample.page_of_three 20 30; Sample.page_of_three 30 20])) t
    /\ loads (snd run)
       = loads st
         ++ [@first_load Sample.utility Sample.config st "gifload_source" Blob_default]
         ++ @scan_loads Sample.utility Sample.config Blob_default
              "gifload_source" 1 (3 - 1)
         ++ [("gifload_source",
              set_input Blob_default
                (reload_options Sample.config
                   (access_method_of
                      (query_ (@with_type Sample.utility st "gifload_source")))
                   1 t))]
    /\ (forall im, fst run = Ok im ->
          query_ (snd run) !! "n" = Some (VInt 1)
          /\ query_ (snd run) !! "page" = Some (VInt t)).
Proof.
  intros st run.
  apply (@new_from_source_extreme_page Sample.utility Sample.config
           Sample.three_pages st "gifload_source" Blob_default
           (Sample.page_of_three 10 10) 3
           [Sample.page_of_three 20 30; Sample.page_of_three 30 20]
           (-1) greater (fst run) (snd run)).
  - left. split; reflexivity.
  - reflexivity.
  - reflexivity.
  - reflexivity.
  - lia.
  - reflexivity.
  - reflexivity.
  - intros [| [| k]] im Hk; simpl in Hk; try discriminate;
      injection Hk as <-; reflexivity.
  - repeat constructor; simpl; unfold Cxx.INT_MAX; lia.
  - apply surjective_pairing.
Defined.

(** ** The page limit and the pixel limit *)

Section Limits.
Context {U : Utility}.
Variable config_ : Config.
Implicit Types q : gmap string Value.

Lemma too_many_pages_not_pixels :
  too_many_pages config_ <> too_many_pixels config_.
Proof. unfold too_many_pages, too_many_pixels. simpl. discriminate. Qed.

(** The only exception of a scan is the one of a page that does not
    decode. *)
Lemma resolve_page_from_throws source blob loader comp fuel :
  forall i size target st e st',
  resolve_page_from config_ source blob loader comp fuel i size target st
  = (Throw e, st') ->
  exists what, e = UnreadableImageException what.
Proof.
  induction fuel as [| fuel IH]; intros i size target st e st' Hrun.
  - discriminate.
  - cbn [resolve_page_from] in Hrun. unfold bind at 1 in Hrun.
    rewrite new_from_source_with_run in Hrun.
    destruct (VImage_call source loader _) as [what | im].
    + injection Hrun as <- _. by exists what.
    + destruct (comp (pixel_size im) size); eapply IH; exact Hrun.
Qed.

(** A resolved [n] above the page limit: the page block throws at once. *)
Lemma select_and_resolve_too_many_pages
    source blob loader access_method q image (n page : Z) st :
  get_page_load_options q (n_pages_of image) = (n, page) ->
  0 < max_pages config_ -> max_pages config_ < n ->
  select_and_resolve config_ source blob loader access_method q image st
  = (Throw (too_many_pages config_), st).
Proof.
  intros Hopts Hmax Hn. unfold select_and_resolve.
  rewrite Hopts. unfold load_pages.
  destruct (Z.eqb_spec n 1); [lia |]. cbn [negb orb].
  destruct (Z.ltb_spec 0 (max_pages config_)); [| lia].
  destruct (Z.ltb_spec (max_pages config_) n); [| lia].
  reflexivity.
Qed.

(** A request for the largest or smallest page never fails on the page
    limit. *)
Lemma select_and_resolve_extreme_not_limited
    source blob loader access_method q image (page : Z) st :
  n_pages_of image <> 1 -> page = -1 \/ page = -2 ->
  q !! "page" = Some (VInt page) ->
  fst (select_and_resolve config_ source blob loader access_method q image st)
  <> Throw (too_many_pages config_).
Proof.
  intros HP Hpage Hreq. unfold select_and_resolve.
  rewrite (get_page_load_options_extreme q _ page) by done.
  unfold load_pages. cbn [Z.eqb negb orb Pos.eqb].
  assert (Hlimit : (0 <? max_pages config_) && (max_pages config_ <? 1) = false).
  { destruct (Z.ltb_spec 0 (max_pages config_)); [| done].
    destruct (Z.ltb_spec (max_pages config_) 1); [lia | done]. }
  rewrite Hlimit.
  assert (Hgoal : forall comp,
    fst ((let* ip :=
            let* page := resolve_page config_ image (n_pages_of image) source
                                      blob loader comp in
            let* image := new_from_source_with source blob loader
                            (reload_options config_ access_method 1 page) in
            ret (image, page) in
          let '(image, page) := ip in
          check_input_pixels config_ image >>
          query_update "n" (VInt 1) >>
          query_update "page" (VInt page) >>
          modify_query (resolve_query image) >> ret image) st)
    <> Throw (too_many_pages config_)).
  { intros comp. unfold bind at 1 2.
    destruct (resolve_page config_ image _ source blob loader comp st)
      as [[t | e] st1] eqn:Hscan.
    - unfold bind at 1. rewrite new_from_source_with_run.
      destruct (VImage_call source loader _) as [what | image']; [done |].
      unfold bind, ret, check_input_pixels, query_update, modify_query, throw.
      cbn beta iota.
      destruct ((0 <? limit_input_pixels config_) && _); [| done].
      simpl. intros Heq. apply too_many_pages_not_pixels.
      symmetry. congruence.
    - apply resolve_page_from_throws in Hscan as [what ->]. done. }
  destruct Hpage as [-> | ->]; cbn [Z.eqb negb orb Pos.eqb].
  - apply (Hgoal greater).
  - apply (Hgoal less).
Qed.

(** C1, as the code has it.  With a positive page limit, the limit is
    checked on the resolved [n], before any scan and before the reload: a
    request whose resolved [n] exceeds it fails with the page-count
    [TooLargeImageException], no load call made after the first one.  A
    request for [page = -1] or [page = -2] on a multi-page input resolves
    to [n = 1], so it never fails on the page limit, whatever the page
    count. *)
Theorem new_from_source_page_limit source st loader blob image :
  find_loader source st = (Ok (loader, blob), st) ->
  VImage_call source loader (snd (first_load config_ st loader blob)) = inr image ->
  0 < max_pages config_ ->
  (forall n page,
      get_page_load_options (query_ (with_type st loader)) (n_pages_of image)
      = (n, page) ->
      max_pages config_ < n ->
      new_from_source config_ source st
      = (Throw (too_many_pages config_),
         add_loads (with_type st loader) [first_load config_ st loader blob]))
  /\ (forall page,
        n_pages_of image <> 1 -> page = -1 \/ page = -2 ->
        query_ st !! "page" = Some (VInt page) ->
        get_page_load_options (query_ (with_type st loader)) (n_pages_of image)
        = (1, page)
        /\ fst (new_from_source config_ source st)
           <> Throw (too_many_pages config_)).
Proof.
  intros Hfind Hload Hmax.
  rewrite (new_from_source_run _ _ _ _ _ _ Hfind Hload). split.
  - intros n page Hopts Hn.
    by apply (select_and_resolve_too_many_pages _ _ _ _ _ _ n page).
  - intros page HP Hpage Hreq.
    assert (Hreq' : query_ (with_type st loader) !! "page" = Some (VInt page)).
    { simpl. unfold Query.update. by rewrite lookup_insert_ne. }
    split.
    + by apply get_page_load_options_extreme.
    + by apply (select_and_resolve_extreme_not_limited _ _ _ _ _ _ page).
Qed.

(** C7.  The pixel limit is checked on the image the page block returns:
    when the limit is positive and [width * height] of that image exceeds
    it, the pipeline fails with the pixel [TooLargeImageException].  The
    page limit is checked before: when the resolved [n] exceeds a positive
    page limit, the pipeline fails with the page-count exception, a
    different one, whatever the size of the image. *)
Theorem new_from_source_limit_order source st loader blob image (n page : Z) :
  find_loader source st = (Ok (loader, blob), st) ->
  VImage_call source loader (snd (first_load config_ st loader blob)) = inr image ->
  get_page_load_options (query_ (with_type st loader)) (n_pages_of image)
  = (n, page) ->
  (forall image' page' st2,
      load_pages config_ source blob loader
        (access_method_of (query_ (with_type st loader))) image
        (n_pages_of image) n page
        (add_loads (with_type st loader) [first_load config_ st loader blob])
      = (Ok (image', page'), st2) ->
      0 <= width image' <= Cxx.INT_MAX -> 0 <= height image' <= Cxx.INT_MAX ->
      0 < limit_input_pixels config_ ->
      limit_input_pixels config_ < width image' * height image' ->
      new_from_source config_ source st = (Throw (too_many_pixels config_), st2))
  /\ (0 < max_pages config_ -> max_pages config_ < n ->
      new_from_source config_ source st
      = (Throw (too_many_pages config_),
         add_loads (with_type st loader) [first_load config_ st loader blob])
      /\ too_many_pages config_ <> too_many_pixels config_).
Proof.
  intros Hfind Hload Hopts.
  rewrite (new_from_source_run _ _ _ _ _ _ Hfind Hload). split.
  - intros image' page' st2 Hpages Hw Hh Hlimit Hsize.
    unfold select_and_resolve. rewrite Hopts.
    unfold bind at 1. rewrite Hpages.
    unfold bind at 1. unfold check_input_pixels.
    rewrite uint64_mul_exact by done.
    destruct (Z.ltb_spec 0 (limit_input_pixels config_)); [| lia].
    destruct (Z.ltb_spec (limit_input_pixels config_) (width image' * height image'));
      [| lia].
    reflexivity.
  - intros Hmax Hn. split; [| apply too_many_pages_not_pixels].
    by apply (select_and_resolve_too_many_pages _ _ _ _ _ _ n page).
Qed.

End Limits.

(** C1 as it is stated fails: with a page limit of [2], a request for the
    largest page of a three-page input is not rejected; it succeeds, after
    three load calls more than the first one. *)
Lemma page_limit_counterexample :
  let c := Sample.with_max_pages Sample.config 2 in
  let st := @mkState Sample.utility Sample.largest_page [] [] in
  let run := @new_from_source Sample.utility c Sample.three_pages st in
  max_pages c <> 0
  /\ max_pages c < 3
  /\ st.(query_) !! "page" = Some (VInt (-1))
  /\ fst run = Ok (Sample.page_of_three 20 30)
  /\ (forall what, fst run <> Throw (TooLargeImageException what))
  /\ length (loads (snd run)) = 4%nat.
Proof.
  vm_compute. repeat split; discriminate.
Qed.

Lemma new_from_source_page_limit_witness :
  let c := Sample.with_max_pages Sample.config 1 in
  let st := @mkState Sample.utility Sample.from_page_one [] [] in
  let st' := @mkState Sample.utility Sample.largest_page [] [] in
  @new_from_source Sample.utility c Sample.three_pages st
  = (Throw (too_many_pages c),
     add_loads (@with_type Sample.utility st "gifload_source")
       [@first_load Sample.utility c st "gifload_source" Blob_default])
  /\ (@get_page_load_options Sample.utility
        (query_ (@with_type Sample.utility st' "gifload_source"))
        (n_pages_of (Sample.page_of_three 10 10)) = (1, -1)
      /\ fst (@new_from_source Sample.utility c Sample.three_pages st')
         <> Throw (too_many_pages c)).
Proof.
  intros c st st'. split.
  - refine (proj1 (@new_from_source_page_limit Sample.utility c
                     Sample.three_pages st "gifload_source" Blob_default
                     (Sample.page_of_three 10 10) _ _ _) 2 1 _ _);
      try reflexivity; simpl; lia.
  - refine (proj2 (@new_from_source_page_limit Sample.utility c
                     Sample.three_pages st' "gifload_source" Blob_default
                     (Sample.page_of_three 10 10) _ _ _) (-1) _ _ _);
      try reflexivity; simpl; try lia. vm_compute. discriminate.
Defined.

Lemma new_from_source_limit_order_witness :
  let c := Sample.with_limit_input_pixels Sample.config 50 in
  let c1 := Sample.with_max_pages c 1 in
  let st := @mkState Sample.utility Sample.page_one [] [] in
  let st' := @mkState Sample.utility Sample.from_page_one [] [] in
  @new_from_source Sample.utility c Sample.three_pages st
  = (Throw (too_many_pixels c),
     add_loads (@with_type Sample.utility st "gifload_source")
       [@first_load Sample.utility c st "gifload_source" Blob_default;
        ("gifload_source",
         reload_options c VIPS_ACCESS_SEQUENTIAL 1 1)])
  /\ (@new_from_source Sample.utility c1 Sample.three_pages st'
      = (Throw (too_many_pages c1),
         add_loads (@with_type Sample.utility st' "gifload_source")
           [@first_load Sample.utility c1 st' "gifload_source" Blob_default])
      /\ too_many_pages c1 <> too_many_pixels c1).
Proof.
  intros c c1 st st'. split.
  - refine (proj1 (@new_from_source_limit_order Sample.utility c
                     Sample.three_pages st "gifload_source" Blob_default
                     (Sample.page_of_three 10 10) 1 1 _ _ _)
                  (Sample.page_of_three 20 30) 1 _ _ _ _ _ _);
      try reflexivity; simpl; unfold Cxx.INT_MAX; lia.
  - refine (proj2 (@new_from_source_limit_order Sample.utility c1
                     Sample.three_pages st' "gifload_source" Blob_default
                     (Sample.page_of_three 10 10) 2 1 _ _ _) _ _);
      try reflexivity; simpl; lia.
Defined.

(** ** Orientation and target dimensions *)

Lemma normalize_angle_mod (rotate : Z) : normalize_angle rotate = rotate mod 360.
Proof.
  unfold normalize_angle, Cxx.int_rem, Cxx.int_add.
  pose proof (Z.rem_bound_abs rotate 360 ltac:(lia)) as Hb.
  assert (Hmod : (Z.rem rotate 360) mod 360 = rotate mod 360).
  { replace (Z.rem rotate 360) with (rotate + (- (rotate ÷ 360)) * 360)
      by (pose proof (Z.quot_rem' rotate 360); lia).
    apply Z.mod_add. lia. }
  destruct (Z.ltb_spec (Z.rem rotate 360) 0) as [Hneg | Hpos].
  - rewrite to_int_id by (unfold Cxx.INT_MIN, Cxx.INT_MAX; lia).
    rewrite <- Hmod.
    rewrite <- (Z.mod_add (Z.rem rotate 360) 1 360) by lia.
    rewrite Z.mod_small; lia.
  - rewrite <- Hmod. rewrite Z.mod_small; lia.
Qed.

(** Case analysis on an EXIF code, as far as the tables look at it. *)
Ltac case_exif exif :=
  destruct exif as [| exif | exif]; try reflexivity;
  repeat (match goal with
          | |- context [match ?p with xH => _ | _ => _ end] =>
              is_var p; destruct p
          end; try reflexivity).

Lemma apply_exif_orientation_table (exif rotate : Z) (flip flop : bool) :
  apply_exif_orientation exif rotate flip flop
  = (if exif_rotation exif =? 0 then rotate
     else Cxx.int_add rotate (exif_rotation exif),
     flip || exif_flip exif, flop || exif_flop exif).
Proof.
  unfold apply_exif_orientation, exif_rotation, exif_flip, exif_flop.
  case_exif exif; cbn [Z.eqb Pos.eqb]; by rewrite ?orb_false_r, ?orb_true_r.
Qed.

Lemma exif_rotation_range (exif : Z) :
  exif_rotation exif = 0 \/ exif_rotation exif = 90
  \/ exif_rotation exif = 180 \/ exif_rotation exif = 270.
Proof. unfold exif_rotation. case_exif exif; tauto. Qed.

Section Orientation.
Context {U : Utility}.
Implicit Types q : gmap string Value.

Lemma rotate_validated_multiple q :
  (Query.get_if_int q "ro" rotate_validator 0) mod 90 = 0.
Proof.
  unfold Query.get_if_int, rotate_validator, Cxx.int_rem.
  destruct (q !! "ro") as [[| r | | | |] |]; try reflexivity.
  destruct (Z.eqb_spec (Z.rem r 90) 0) as [Hr |]; [| reflexivity].
  by apply Z.rem_mod_eq_0.
Qed.

(** What [resolve_query] stores for the angle and the two mirror flags. *)
Lemma resolve_query_orientation image q :
  let rotate := Query.get_if_int q "ro" rotate_validator 0 in
  let '(rotate', flip, flop) :=
    apply_exif_orientation (exif_orientation image) rotate
      (Query.get_bool q "flip" false) (Query.get_bool q "flop" false) in
  resolve_query image q !! "angle" = Some (VInt (normalize_angle rotate'))
  /\ resolve_query image q !! "flip" = Some (VBool flip)
  /\ resolve_query image q !! "flop" = Some (VBool flop).
Proof.
  intros rotate. unfold resolve_query. fold rotate.
  destruct (apply_exif_orientation _ _ _ _) as [[rotate' flip] flop].
  destruct (pixel_ratio_in_range _); destruct (_ && _);
    unfold Query.update; repeat split;
    rewrite ?lookup_insert_ne by done; by rewrite lookup_insert_eq.
Qed.

(** The angle, where the addition of the EXIF rotation does not leave the
    range of [int]: the requested rotation plus the EXIF rotation, modulo
    360, a multiple of 90; the flags are the requested ones or the ones the
    EXIF code sets. *)
Lemma resolve_query_angle_in_range image q :
  let rotate := Query.get_if_int q "ro" rotate_validator 0 in
  let exif := exif_orientation image in
  Cxx.INT_MIN <= rotate -> rotate + exif_rotation exif <= Cxx.INT_MAX ->
  exists angle,
    resolve_query image q !! "angle" = Some (VInt angle)
    /\ angle = (rotate + exif_rotation exif) mod 360
    /\ 0 <= angle < 360 /\ angle mod 90 = 0
    /\ resolve_query image q !! "flip"
       = Some (VBool (Query.get_bool q "flip" false || exif_flip exif))
    /\ resolve_query image q !! "flop"
       = Some (VBool (Query.get_bool q "flop" false || exif_flop exif)).
Proof.
  intros rotate exif Hlo Hhi.
  pose proof (resolve_query_orientation image q) as Hres. cbv zeta in Hres.
  fold rotate exif in Hres. rewrite apply_exif_orientation_table in Hres.
  destruct Hres as (Hangle & Hflip & Hflop).
  pose proof (rotate_validated_multiple q) as Hmul. fold rotate in Hmul.
  pose proof (exif_rotation_range exif) as Hrot.
  exists ((rotate + exif_rotation exif) mod 360).
  repeat split; try done.
  - rewrite Hangle. do 2 f_equal. rewrite normalize_angle_mod.
    destruct (Z.eqb_spec (exif_rotation exif) 0) as [-> | Hne].
    + by rewrite Z.add_0_r.
    + unfold Cxx.int_add. rewrite to_int_id; [done |].
      unfold Cxx.INT_MIN, Cxx.INT_MAX in *. lia.
  - apply Z.mod_pos_bound. lia.
  - apply Z.mod_pos_bound. lia.
  - revert Hmul. generalize rotate. intros r Hr.
    destruct Hrot as [-> | [-> | [-> | ->]]];
      Z.div_mod_to_equations; lia.
Qed.

End Orientation.

(** C4, at the input where the code leaves it.  A rotation of 2147483610
    degrees is a multiple of 90 and an [int], so it is accepted; on an image
    of EXIF code 6 the addition [rotate + 90] leaves the range of [int], and
    the angle that is stored, 284, is not a multiple of 90 (the rotation
    plus the EXIF rotation is 180 modulo 360). *)
Theorem resolve_query_angle_overflow {U : Utility} image (q : gmap string Value) :
  exif_orientation image = 6 ->
  q !! "ro" = Some (VInt 2147483610) ->
  rotate_validator 2147483610 = true
  /\ Cxx.in_int 2147483610 = true
  /\ resolve_query image q !! "angle" = Some (VInt 284)
  /\ 284 mod 90 <> 0
  /\ (2147483610 + exif_rotation 6) mod 360 = 180.
Proof.
  intros Hexif Hro.
  pose proof (resolve_query_orientation image q) as Hres. cbv zeta in Hres.
  rewrite Hexif, (get_if_int_requested _ _ _ _ _ Hro) in Hres.
  destruct Hres as (Hangle & _).
  repeat split; done.
Qed.

Lemma resolve_query_angle_overflow_witness :
  let image := Sample.still 100 50 (Some 6) false in
  rotate_validator 2147483610 = true
  /\ Cxx.in_int 2147483610 = true
  /\ @resolve_query Sample.utility image Sample.huge_rotation !! "angle"
     = Some (VInt 284)
  /\ 284 mod 90 <> 0
  /\ (2147483610 + exif_rotation 6) mod 360 = 180.
Proof.
  intros image.
  apply (@resolve_query_angle_overflow Sample.utility image Sample.huge_rotation);
    reflexivity.
Defined.

(** The examples of the spec: a rotation of -90 degrees is stored as 270;
    EXIF code 6 gives 90 degrees and no mirror, EXIF code 7 gives 90
    degrees and a flip. *)
Example resolve_query_rotate_minus_90 :
  @resolve_query Sample.utility (Sample.still 100 50 None false)
    {["ro" := VInt (-90)]} !! "angle" = Some (VInt 270).
Proof. reflexivity. Qed.

Example resolve_query_exif_6 :
  let q := @resolve_query Sample.utility (Sample.still 100 50 (Some 6) false) ∅ in
  q !! "angle" = Some (VInt 90)
  /\ q !! "flip" = Some (VBool false) /\ q !! "flop" = Some (VBool false).
Proof. by vm_compute. Qed.

Example resolve_query_exif_7 :
  let q := @resolve_query Sample.utility (Sample.still 100 50 (Some 7) false) ∅ in
  q !! "angle" = Some (VInt 90) /\ q !! "flip" = Some (VBool true).
Proof. by vm_compute. Qed.

Section TargetDimensions.
Context {U : Utility}.
Implicit Types q : gmap string Value.

(** [std::round] returns a nearest integer: twice the distance to the value
    [m * 2^e] is at most one. *)
Lemma round_nearest (s : bool) (m : positive) (e k : Z) :
  Float.round (S754_finite s m e) = Some k ->
  if 0 <=? e then k = cond_Zopp s (Zpos m * 2 ^ e)
  else 2 * Z.abs (k * 2 ^ (- e) - cond_Zopp s (Zpos m)) <= 2 ^ (- e).
Proof.
  unfold Float.round. destruct (Z.leb_spec 0 e) as [He | He].
  - by intros [= <-].
  - intros [= <-].
    assert (Hd : 0 < 2 ^ (- e)) by (apply Z.pow_pos_nonneg; lia).
    pose proof (Z.div_mod (Zpos m) (2 ^ (- e)) ltac:(lia)) as Hdm.
    pose proof (Z.mod_pos_bound (Zpos m) (2 ^ (- e)) Hd) as Hr.
    set (d := 2 ^ (- e)) in *. set (qt := Zpos m / d) in *.
    set (r := Zpos m mod d) in *.
    destruct (Z.leb_spec d (2 * r)); destruct s; simpl; nia.
Qed.

(** The target dimensions [resolve_query] stores, by the operations of the
    code: the resolved coordinates, scaled in [float] and converted back to
    [int] when the pixel ratio passes the range test, swapped, clamped. *)
Lemma resolve_query_dimensions image q :
  let tw :=
    to_pixels (Query.get_Coordinate q "w" Coordinate_INVALID) (width image) in
  let th :=
    to_pixels (Query.get_Coordinate q "h" Coordinate_INVALID) (height image) in
  let pixel_ratio := Query.get_float q "dpr" (Float.of_int (-1)) in
  let scale := pixel_ratio_in_range pixel_ratio in
  let swap :=
    (4 <? exif_orientation image) && negb (Query.get_bool q "precrop" false) in
  let w := if scale then scale_by_pixel_ratio tw pixel_ratio else tw in
  let h := if scale then scale_by_pixel_ratio th pixel_ratio else th in
  resolve_query image q !! "w"
  = Some (VInt (Cxx.clamp (if swap then h else w) 0 VIPS_MAX_COORD))
  /\ resolve_query image q !! "h"
     = Some (VInt (Cxx.clamp (if swap then w else h) 0 VIPS_MAX_COORD)).
Proof.
  cbv zeta. unfold resolve_query.
  destruct (apply_exif_orientation _ _ _ _) as [[rotate flip] flop].
  rewrite !get_Coordinate_update_ne, !get_float_update_ne,
    !get_bool_update_ne by done.
  destruct (pixel_ratio_in_range _); destruct (_ && _); unfold Query.update;
    split; rewrite ?lookup_insert_ne by done; by rewrite lookup_insert_eq.
Qed.

End TargetDimensions.

(** C5, at an input where the code leaves it.  A width of 300000000 pixels
    is an [int] and a pixel ratio of 8 passes the range test.  The product,
    2400000000, is a [float] but no [int]: the conversion
    [static_cast<int>] of it is undefined, the conversion instruction gives
    [INT_MIN], and the width that is stored after the clamp is 0.  The
    width scaled by 8, rounded and clamped to [0, VIPS_MAX_COORD] is
    10000000; the height, 50, is scaled to 400 as the spec says. *)
Theorem resolve_query_dimension_overflow {U : Utility} image
    (q : gmap string Value) :
  to_pixels (Query.get_Coordinate q "w" Coordinate_INVALID) (width image)
  = 300000000 ->
  to_pixels (Query.get_Coordinate q "h" Coordinate_INVALID) (height image)
  = 50 ->
  q !! "dpr" = Some (VFloat (Float.of_int 8)) ->
  (4 <? exif_orientation image) && negb (Query.get_bool q "precrop" false)
  = false ->
  Cxx.in_int 300000000 = true
  /\ pixel_ratio_in_range (Float.of_int 8) = true
  /\ resolve_query image q !! "w" = Some (VInt 0)
  /\ resolve_query image q !! "h" = Some (VInt 400)
  /\ target_dimensions 300000000 50 (float_ratio (Float.of_int 8))
       (exif_orientation image) (Query.get_bool q "precrop" false)
     = (10000000, 400).
Proof.
  intros Htw Hth Hdpr Hswap.
  pose proof (resolve_query_dimensions image q) as Hres. cbv zeta in Hres.
  assert (Hratio : Query.get_float q "dpr" (Float.of_int (-1)) = Float.of_int 8)
    by (unfold Query.get_float; by rewrite Hdpr).
  rewrite Htw, Hth, Hswap, Hratio in Hres.
  assert (Hin : pixel_ratio_in_range (Float.of_int 8) = true) by reflexivity.
  assert (Hw : scale_by_pixel_ratio 300000000 (Float.of_int 8) = Cxx.INT_MIN)
    by (by vm_compute).
  assert (Hh : scale_by_pixel_ratio 50 (Float.of_int 8) = 400)
    by (by vm_compute).
  rewrite Hin, Hw, Hh in Hres. destruct Hres as [Hwidth Hheight].
  split; [reflexivity |]. split; [exact Hin |].
  split; [exact Hwidth |]. split; [exact Hheight |].
  unfold target_dimensions. rewrite Hswap. reflexivity.
Qed.

Lemma resolve_query_dimension_overflow_witness :
  let image := Sample.still 640 480 None false in
  let q : gmap string (@Value Sample.utility) :=
    <["dpr" := VFloat (Float.of_int 8)]>
      (<["h" := @VCoordinate Sample.utility (Some 50)]>
         {["w" := @VCoordinate Sample.utility (Some 300000000)]}) in
  Cxx.in_int 300000000 = true
  /\ pixel_ratio_in_range (Float.of_int 8) = true
  /\ @resolve_query Sample.utility image q !! "w" = Some (VInt 0)
  /\ @resolve_query Sample.utility image q !! "h" = Some (VInt 400)
  /\ target_dimensions 300000000 50 (float_ratio (Float.of_int 8))
       (@exif_orientation Sample.utility image) (Query.get_bool q "precrop" false)
     = (10000000, 400).
Proof.
  intros image q.
  apply (@resolve_query_dimension_overflow Sample.utility image q);
    reflexivity.
Defined.

(** Where the conversion starts to fail at a pixel ratio of 8: the product
    of 268435440 is the [int] 2147483520, the product of 268435448 rounds to
    the [float] 2147483648, which is no [int]. *)
Example scale_by_pixel_ratio_boundary :
  scale_by_pixel_ratio 268435440 (Float.of_int 8) = 2147483520
  /\ scale_by_pixel_ratio 268435448 (Float.of_int 8) = Cxx.INT_MIN.
Proof. by vm_compute. Qed.

(** The examples of the spec, where the code does what the spec says: at a
    pixel ratio of 2 a width of 100 becomes 200; a pixel ratio of 9 is
    ignored, and so is an absent one; the swap needs an EXIF code above 4
    and no [precrop]. *)
Example target_dimensions_dpr_2 :
  target_dimensions 100 50 (float_ratio (Float.of_int 2)) 0 false = (200, 100).
Proof. reflexivity. Qed.

Example target_dimensions_dpr_9 :
  target_dimensions 100 50 (float_ratio (Float.of_int 9)) 0 false = (100, 50).
Proof. reflexivity. Qed.

Example target_dimensions_no_dpr :
  target_dimensions 100 50 (float_ratio (Float.of_int (-1))) 0 false = (100, 50).
Proof. reflexivity. Qed.

Example target_dimensions_swap :
  target_dimensions 100 50 (float_ratio (Float.of_int 9)) 6 false = (50, 100)
  /\ target_dimensions 100 50 (float_ratio (Float.of_int 9)) 6 true = (100, 50)
  /\ target_dimensions 100 50 (float_ratio (Float.of_int 9)) 4 false = (100, 50).
Proof. by vm_compute. Qed.

Example resolve_query_dpr_2 :
  let image := Sample.still 640 480 (Some 6) false in
  let q := @resolve_query Sample.utility image (Sample.sized 2) in
  q !! "w" = Some (VInt 100) /\ q !! "h" = Some (VInt 200)
  /\ target_dimensions 100 50 (float_ratio (Float.of_int 2)) 6 false
     = (100, 200).
Proof. by vm_compute. Qed.

Example resolve_query_dpr_9 :
  let image := Sample.still 640 480 None false in
  let q := @resolve_query Sample.utility image (Sample.sized 9) in
  q !! "w" = Some (VInt 100) /\ q !! "h" = Some (VInt 50)
  /\ target_dimensions 100 50 (float_ratio (Float.of_int 9)) 0 false
     = (100, 50).
Proof. by vm_compute. Qed.

Example pixel_ratio_nan_not_in_range : pixel_ratio_in_range S754_nan = false.
Proof. reflexivity. Qed.

Example resolve_query_no_dpr :
  let q := @resolve_query Sample.utility (Sample.still 640 480 None false)
             (<["h" := @VCoordinate Sample.utility (Some 50)]>
                {["w" := @VCoordinate Sample.utility (Some 100)]}) in
  q !! "w" = Some (VInt 100) /\ q !! "h" = Some (VInt 50)
  /\ q !! "input_width" = Some (VInt 640)
  /\ q !! "input_height" = Some (VInt 480).
Proof. by vm_compute. Qed.

(** ** Saving *)

Section Encode.
Context {U : Utility}.
Variable config_ : Config.
Implicit Types q : gmap string Value.

Lemma attach_metadata_has_alpha q image copy :
  attach_metadata q image = Ok copy -> has_alpha copy = has_alpha image.
Proof.
  unfold attach_metadata.
  destruct (resolve_delays q) as [[delays |] | e]; [| | done];
    intros [= <-]; destruct (1 <? _); destruct (0 <=? _); reflexivity.
Qed.

(** What [attach_metadata] does to the frame delays. *)
Lemma attach_metadata_delay q image :
  match resolve_delays q with
  | Ok (Some delays) =>
      exists copy, attach_metadata q image = Ok copy
                   /\ meta_delay copy = Some delays
  | Ok None =>
      exists copy, attach_metadata q image = Ok copy
                   /\ meta_delay copy = meta_delay image
  | Throw e => attach_metadata q image = Throw e
  end.
Proof.
  unfold attach_metadata.
  destruct (resolve_delays q) as [[delays |] | e]; [| | done];
    eexists; (split; [reflexivity |]);
    destruct (1 <? _); destruct (0 <=? _); reflexivity.
Qed.

(** [write_to_target] once the metadata is attached: the saver check, then
    the JSON document or the save call. *)
Lemma write_to_target_run image copy st :
  attach_metadata (query_ st) image = Ok copy ->
  let q := query_ st in
  let output := resolve_output q copy in
  let extension := determine_image_extension output in
  write_to_target config_ image st
  = if saver_disabled config_ output
    then (match unsupported_saver config_ extension with
          | Ok e => Throw e
          | Throw e => Throw e
          end, st)
    else if decide (output = Json)
    then (Ok tt,
          mkState q (loads st)
            (events st ++
             [Target_setup extension;
              Target_write
                (image_to_json copy
                   (Query.get_ImageType q "type" ImageType_Unknown));
              Target_end]))
    else
      let save_options :=
        append_save_options config_ output q [("strip", OBool true)] in
      (match write_to_target_error extension copy save_options with
       | Some what => Throw (VError what)
       | None => Ok tt
       end,
       mkState q (loads st)
         (events st ++
          [Target_setup extension;
           setup_timeout_handler copy (process_timeout config_);
           VImage_write_to_target extension copy save_options])).
Proof.
  intros Hcopy. cbv zeta. unfold write_to_target.
  unfold bind at 1. unfold get_query at 1.
  unfold bind at 1. unfold lift at 1. rewrite Hcopy.
  set (output := resolve_output (query_ st) copy).
  set (extension := determine_image_extension output).
  unfold bind at 1.
  destruct (saver_disabled config_ output).
  - by destruct (unsupported_saver config_ extension).
  - unfold ret at 1. destruct (decide (output = Json)).
    + unfold bind, emit. simpl. by rewrite <- !app_assoc.
    + unfold bind, emit. simpl.
      destruct (write_to_target_error extension copy _);
        unfold throw, ret; by rewrite <- !app_assoc.
Qed.

(** C6.  When the request asks for the output ["origin"] (the default): if
    the image has an alpha channel and its input type cannot carry alpha,
    the output format is PNG; if the input type can carry alpha, or the
    image has no alpha channel, the output format is the one the input type
    maps to. *)
Theorem resolve_output_origin q image copy :
  attach_metadata q image = Ok copy ->
  Query.get_Output q "output" Origin = Origin ->
  let image_type := Query.get_ImageType q "type" ImageType_Unknown in
  (has_alpha image = true -> support_alpha_channel image_type = false ->
   resolve_output q copy = Png)
  /\ (support_alpha_channel image_type = true \/ has_alpha image = false ->
      resolve_output q copy = to_output image_type).
Proof.
  intros Hcopy Horigin image_type. unfold resolve_output.
  rewrite Horigin, (attach_metadata_has_alpha _ _ _ Hcopy). fold image_type.
  destruct (decide (Origin = Origin)); [| done]. split.
  - by intros -> ->.
  - intros [-> | ->]; [done |]. by rewrite orb_true_r.
Qed.

(** C8.  When the bit of the output format [write_to_target] settles on is
    cleared in the saver mask, the call throws [UnsupportedSaverException],
    its message naming the savers that are enabled, and leaves the state as
    it was: nothing is set up or written, the save call of the codec
    library is not made.  A request for WebP whose bit is cleared is such a
    request. *)
Theorem write_to_target_unsupported_saver image copy st c name :
  attach_metadata (query_ st) image = Ok copy ->
  let output := resolve_output (query_ st) copy in
  Z.land (savers config_) (Cxx.to_uint64 (Output_value output)) = 0 ->
  determine_image_extension output = String c name ->
  write_to_target config_ image st
  = (Throw (UnsupportedSaverException
              ("Saving to " +:+ name +:+ " is disabled. Supported savers: " +:+
               supported_savers_string (savers config_))),
     st)
  /\ (Query.get_Output (query_ st) "output" Origin = Webp -> output = Webp).
Proof.
  intros Hcopy output Hbit Hext. split.
  - rewrite (write_to_target_run _ _ _ Hcopy). fold output.
    unfold saver_disabled. rewrite Hbit. simpl.
    unfold unsupported_saver. by rewrite Hext.
  - intros Hwebp. unfold output, resolve_output. rewrite Hwebp.
    by destruct (decide (Webp = Origin)).
Qed.

(** C10.  The saver check comes before the JSON case: a request for the
    JSON output whose bit is cleared in the saver mask throws
    [UnsupportedSaverException] and writes nothing; with the bit set, the
    JSON document is written to the target, and the save call of the codec
    library is not made. *)
Theorem write_to_target_json image copy st c name :
  attach_metadata (query_ st) image = Ok copy ->
  Query.get_Output (query_ st) "output" Origin = Json ->
  determine_image_extension Json = String c name ->
  (Z.land (savers config_) (Cxx.to_uint64 (Output_value Json)) = 0 ->
   write_to_target config_ image st
   = (Throw (UnsupportedSaverException
               ("Saving to " +:+ name +:+ " is disabled. Supported savers: " +:+
                supported_savers_string (savers config_))),
      st))
  /\ (Z.land (savers config_) (Cxx.to_uint64 (Output_value Json)) <> 0 ->
      write_to_target config_ image st
      = (Ok tt,
         mkState (query_ st) (loads st)
           (events st ++
            [Target_setup (String c name);
             Target_write
               (image_to_json copy
                  (Query.get_ImageType (query_ st) "type" ImageType_Unknown));
             Target_end]))).
Proof.
  intros Hcopy Hjson Hext.
  assert (Hout : resolve_output (query_ st) copy = Json).
  { unfold resolve_output. rewrite Hjson. by destruct (decide (Json = Origin)). }
  rewrite (write_to_target_run _ _ _ Hcopy). cbv zeta. rewrite Hout, Hext.
  unfold saver_disabled. split; intros Hbit.
  - rewrite Hbit. simpl. unfold unsupported_saver. done.
  - destruct (Z.eqb_spec (Z.land (savers config_)
                (Cxx.to_uint64 (Output_value Json))) 0); [done |].
    by destruct (decide (Json = Json)).
Qed.

End Encode.

(** ** Frame delays *)

Section Delays.
Context {U : Utility}.
Implicit Types q : gmap string Value.

Lemma delay_validator_negative (v : list Z) (d : Z) :
  d ∈ v -> d < 0 -> delay_validator v = false.
Proof.
  intros Hin Hneg. unfold delay_validator.
  destruct (forallb (fun d => 0 <=? d) v) eqn:Hall; [| done].
  rewrite forallb_forall in Hall.
  specialize (Hall d (proj1 (list_elem_of_In _ _) Hin)).
  apply Z.leb_le in Hall. lia.
Qed.

Lemma resolve_delays_rejected q (v : list Z) (d : Z) :
  q !! "delay" = Some (VIntVector v) -> d ∈ v -> d < 0 ->
  resolve_delays q = Ok None.
Proof.
  intros Hreq Hin Hneg. unfold resolve_delays, Query.get_if_vector.
  by rewrite Hreq, (delay_validator_negative v d Hin Hneg).
Qed.

Lemma resolve_delays_single q (d n : Z) :
  q !! "delay" = Some (VIntVector [d]) -> 0 <= d ->
  q !! "n" = Some (VInt n) -> 1 <= n <= Cxx.INT_MAX ->
  resolve_delays q = Ok (Some (replicate (Z.to_nat n) d)).
Proof.
  intros Hreq Hd Hn Hrange.
  unfold resolve_delays, Query.get_if_vector, Query.get_int1, Query.get_int.
  rewrite Hreq, Hn. unfold delay_validator. cbn [forallb].
  destruct (Z.leb_spec 0 d); [| lia]. cbn [andb].
  unfold Cxx.int_sub. rewrite to_int_id
    by (unfold Cxx.INT_MIN, Cxx.INT_MAX in *; lia).
  unfold Cxx.to_uint64. rewrite Z.mod_small
    by (unfold Cxx.INT_MAX in *; lia).
  unfold vector_insert_end. cbn [length].
  destruct (Z.ltb_spec (Cxx.vector_max_size - Z.of_nat 1) (n - 1)) as [Hbig |].
  { unfold Cxx.vector_max_size, Cxx.INT_MAX in *. lia. }
  do 2 f_equal. replace (Z.to_nat n) with (S (Z.to_nat (n - 1))) by lia.
  reflexivity.
Qed.

Lemma resolve_delays_empty q :
  q !! "delay" = Some (VIntVector []) \/ q !! "delay" = None ->
  resolve_delays q = Ok None.
Proof.
  unfold resolve_delays, Query.get_if_vector. by intros [-> | ->].
Qed.

(** C9.  When an element of the delay list is negative, the whole list is
    dropped and the delays of the working copy stay as they were.  When the
    list is a single delay [d >= 0], the delays attached are [n] copies of
    [d], [n >= 1] being the page count stored in the parameter store.  An
    empty or absent list attaches nothing. *)
Theorem attach_metadata_delays q image :
  (forall v d, q !! "delay" = Some (VIntVector v) -> d ∈ v -> d < 0 ->
     exists copy, attach_metadata q image = Ok copy
                  /\ meta_delay copy = meta_delay image)
  /\ (forall d n, q !! "delay" = Some (VIntVector [d]) -> 0 <= d ->
        q !! "n" = Some (VInt n) -> 1 <= n <= Cxx.INT_MAX ->
        exists copy, attach_metadata q image = Ok copy
                     /\ meta_delay copy = Some (replicate (Z.to_nat n) d))
  /\ (q !! "delay" = Some (VIntVector []) \/ q !! "delay" = None ->
      exists copy, attach_metadata q image = Ok copy
                   /\ meta_delay copy = meta_delay image).
Proof.
  pose proof (attach_metadata_delay q image) as Hrun.
  split; [| split].
  - intros v d Hreq Hin Hneg.
    by rewrite (resolve_delays_rejected q v d Hreq Hin Hneg) in Hrun.
  - intros d n Hreq Hd Hn Hrange.
    by rewrite (resolve_delays_single q d n Hreq Hd Hn Hrange) in Hrun.
  - intros Hempty. by rewrite (resolve_delays_empty q Hempty) in Hrun.
Qed.

End Delays.

(** ** The theorems on sample requests *)

Lemma resolve_output_origin_witness :
  let image := Sample.still 10 10 None true in
  @resolve_output Sample.utility (Sample.origin_output 1) image = Png
  /\ @resolve_output Sample.utility (Sample.origin_output 3) image
     = @to_output Sample.utility 3.
Proof.
  intros image. split.
  - refine (proj1 (@resolve_output_origin Sample.utility
                     (Sample.origin_output 1) image image _ _) _ _);
      reflexivity.
  - refine (proj2 (@resolve_output_origin Sample.utility
                     (Sample.origin_output 3) image image _ _) _);
      try reflexivity. left. reflexivity.
Defined.

Lemma write_to_target_unsupported_saver_witness :
  let c := Sample.with_savers Sample.config 123 in
  let image := Sample.still 10 10 None false in
  let st := @mkState Sample.utility Sample.webp_output [] [] in
  @write_to_target Sample.utility c image st
  = (Throw (UnsupportedSaverException
              ("Saving to " +:+ "webp" +:+ " is disabled. Supported savers: " +:+
               @supported_savers_string Sample.utility (savers c))),
     st)
  /\ (Query.get_Output (query_ st) "output" Origin = Webp ->
      @resolve_output Sample.utility (query_ st) image = Webp).
Proof.
  intros c image st.
  apply (@write_to_target_unsupported_saver Sample.utility c image image st
           "."%char "webp"); reflexivity.
Defined.

Lemma write_to_target_json_witness :
  let image := Sample.still 10 10 None false in
  let st := @mkState Sample.utility Sample.json_output [] [] in
  @write_to_target Sample.utility (Sample.with_savers Sample.config 63) image st
  = (Throw (UnsupportedSaverException
              ("Saving to " +:+ "json" +:+ " is disabled. Supported savers: " +:+
               @supported_savers_string Sample.utility 63)),
     st)
  /\ @write_to_target Sample.utility Sample.config image st
     = (Ok tt,
        mkState (query_ st) (loads st)
          (events st ++
           [Target_setup ".json";
            Target_write
              (@image_to_json Sample.utility image
                 (Query.get_ImageType (query_ st) "type"
                    (@ImageType_Unknown Sample.utility)));
            Target_end])).
Proof.
  intros image st. split.
  - refine (proj1 (@write_to_target_json Sample.utility
                     (Sample.with_savers Sample.config 63) image image st
                     "."%char "json" _ _ _) _); reflexivity.
  - refine (proj2 (@write_to_target_json Sample.utility
                     Sample.config image image st
                     "."%char "json" _ _ _) _); try reflexivity.
    vm_compute. discriminate.
Defined.

Lemma attach_metadata_delays_witness :
  let image := Sample.still 10 30 None false in
  (exists copy,
      @attach_metadata Sample.utility (Sample.delayed [50; -1] 3) image = Ok copy
      /\ meta_delay copy = meta_delay image)
  /\ (exists copy,
        @attach_metadata Sample.utility (Sample.delayed [50] 3) image = Ok copy
        /\ meta_delay copy = Some (replicate (Z.to_nat 3) 50))
  /\ (exists copy,
        @attach_metadata Sample.utility (Sample.delayed [] 3) image = Ok copy
        /\ meta_delay copy = meta_delay image).
Proof.
  intros image. split; [| split].
  - refine (proj1 (@attach_metadata_delays Sample.utility
                     (Sample.delayed [50; -1] 3) image) [50; -1] (-1) _ _ _).
    + reflexivity.
    + apply list_elem_of_In. right. left. reflexivity.
    + lia.
  - refine (proj1 (proj2 (@attach_metadata_delays Sample.utility
                            (Sample.delayed [50] 3) image)) 50 3 _ _ _ _);
      try reflexivity; unfold Cxx.INT_MAX; lia.
  - refine (proj2 (proj2 (@attach_metadata_delays Sample.utility
                            (Sample.delayed [] 3) image)) _).
    left. reflexivity.
Defined.

(** The example of the spec: the single delay 50 on three frames. *)
Example attach_metadata_single_delay :
  match @attach_metadata Sample.utility (Sample.delayed [50] 3)
          (Sample.still 10 30 None false) with
  | Ok copy => meta_delay copy
  | Throw _ => None
  end = Some [50; 50; 50].
Proof. reflexivity. Qed.

(** * Further properties *)

(** ** The buffer handle and its reference counts *)

Lemma refcount_reference (b : Blob) (rc : gmap VipsBlob Z) (p : VipsBlob) :
  refcount (reference b rc) p = refcount rc p + points_to b p.
Proof.
  unfold refcount, reference, points_to.
  destruct (blob_ b) as [p' |]; [| case_decide; [done | lia]].
  destruct (decide (p' = p)) as [-> | Hne].
  - rewrite lookup_insert_eq. case_decide; [simpl; lia | done].
  - rewrite lookup_insert_ne by done. case_decide; [congruence | lia].
Qed.

Lemma refcount_unreference (b : Blob) (rc : gmap VipsBlob Z) (p : VipsBlob) :
  refcount (unreference b rc) p = refcount rc p - points_to b p.
Proof.
  unfold refcount, unreference, points_to.
  destruct (blob_ b) as [p' |]; [| case_decide; [done | lia]].
  destruct (decide (p' = p)) as [-> | Hne].
  - rewrite lookup_insert_eq. case_decide; [simpl; lia | done].
  - rewrite lookup_insert_ne by done. case_decide; [congruence | lia].
Qed.

Lemma Blob_assign_refcount (this a : Blob) (rc : gmap VipsBlob Z) (p : VipsBlob) :
  refcount (snd (Blob_assign this a rc)) p
  = refcount rc p + points_to a p - points_to this p.
Proof.
  unfold Blob_assign. destruct (decide (blob_ this = blob_ a)) as [Heq | Hne].
  - simpl. unfold points_to. rewrite Heq. case_decide; lia.
  - simpl. rewrite refcount_reference, refcount_unreference. lia.
Qed.

Lemma Blob_assign_pointer (this a : Blob) (rc : gmap VipsBlob Z) :
  blob_ (fst (Blob_assign this a rc)) = blob_ a.
Proof. unfold Blob_assign. by destruct (decide (blob_ this = blob_ a)). Qed.

(** X1.  After the assignment [this = a] the handle points where [a]
    points, and the count of every blob has moved by one up if [a] points
    to it and by one down if [this] pointed to it; an assignment between
    handles on the same blob, self-assignment included, moves nothing. *)
Theorem Blob_assign_counts (this a : Blob) (rc : gmap VipsBlob Z) :
  blob_ (fst (Blob_assign this a rc)) = blob_ a
  /\ (forall p, refcount (snd (Blob_assign this a rc)) p
                = refcount rc p + points_to a p - points_to this p)
  /\ (blob_ this = blob_ a -> snd (Blob_assign this a rc) = rc).
Proof.
  split; [apply Blob_assign_pointer |].
  split; [apply Blob_assign_refcount |].
  intros Heq. unfold Blob_assign.
  by destruct (decide (blob_ this = blob_ a)).
Qed.

(** X2.  Copying a handle on a counted blob and destroying the copy gives
    back the counts there were; copying a null handle changes no count. *)
Theorem Blob_copy_destroy (a : Blob) (rc : gmap VipsBlob Z) :
  (forall p, blob_ a = Some p -> is_Some (rc !! p)) ->
  blob_ (fst (Blob_copy a rc)) = blob_ a
  /\ unreference (fst (Blob_copy a rc)) (snd (Blob_copy a rc)) = rc
  /\ (blob_ a = None -> snd (Blob_copy a rc) = rc).
Proof.
  intros Hcounted. unfold Blob_copy, reference, unreference. simpl.
  destruct (blob_ a) as [p |]; [| done].
  destruct (Hcounted p eq_refl) as [k Hk].
  repeat split; [| done].
  rewrite lookup_insert_eq, Hk. simpl. rewrite insert_insert_eq.
  apply insert_id. rewrite Hk. f_equal. lia.
Qed.

Lemma Blob_copy_destroy_witness :
  let a := mkBlob (Some 7%positive) in
  let rc : gmap VipsBlob Z := {[7%positive := 1]} in
  blob_ (fst (Blob_copy a rc)) = blob_ a
  /\ unreference (fst (Blob_copy a rc)) (snd (Blob_copy a rc)) = rc
  /\ (blob_ a = None -> snd (Blob_copy a rc) = rc).
Proof.
  intros a rc. apply (Blob_copy_destroy a rc).
  intros p [= <-]. exists 1. reflexivity.
Defined.

(** X3.  The counts stay those of the live handles: when every blob is
    counted once per live handle, it still is after a live handle was
    copied (the copy is live too), after a live handle was assigned from
    another live handle, and after a live handle was destroyed. *)
Theorem counts_handles_kept (this a : Blob) (rest : list Blob)
    (rc : gmap VipsBlob Z) :
  counts_handles (this :: a :: rest) rc ->
  counts_handles (fst (Blob_copy this rc) :: this :: a :: rest)
                 (snd (Blob_copy this rc))
  /\ counts_handles (fst (Blob_assign this a rc) :: a :: rest)
                    (snd (Blob_assign this a rc))
  /\ counts_handles (a :: rest) (unreference this rc).
Proof.
  intros Hrc. split; [| split].
  - intros p. unfold Blob_copy. cbn [fst snd].
    rewrite refcount_reference, (Hrc p).
    change (handles_on (mkBlob (blob_ this) :: this :: a :: rest) p)
      with (points_to (mkBlob (blob_ this)) p + handles_on (this :: a :: rest) p).
    unfold points_to at 2. simpl. fold (points_to this p). lia.
  - intros p.
    pose proof (Blob_assign_pointer this a rc) as Hptr.
    assert (Hpt : points_to (fst (Blob_assign this a rc)) p = points_to a p)
      by (unfold points_to; by rewrite Hptr).
    rewrite Blob_assign_refcount, (Hrc p).
    change (handles_on (this :: a :: rest) p)
      with (points_to this p + handles_on (a :: rest) p).
    change (handles_on (fst (Blob_assign this a rc) :: a :: rest) p)
      with (points_to (fst (Blob_assign this a rc)) p + handles_on (a :: rest) p).
    rewrite Hpt. lia.
  - intros p. rewrite refcount_unreference, (Hrc p).
    change (handles_on (this :: a :: rest) p)
      with (points_to this p + handles_on (a :: rest) p).
    lia.
Qed.

Lemma counts_handles_kept_witness :
  let this := mkBlob (Some 7%positive) in
  let a := mkBlob (Some 9%positive) in
  let rc : gmap VipsBlob Z := <[9%positive := 1]> {[7%positive := 1]} in
  counts_handles (fst (Blob_copy this rc) :: this :: a :: [])
                 (snd (Blob_copy this rc))
  /\ counts_handles (fst (Blob_assign this a rc) :: a :: [])
                    (snd (Blob_assign this a rc))
  /\ counts_handles (a :: []) (unreference this rc).
Proof.
  intros this a rc. apply (counts_handles_kept this a [] rc).
  subst this a rc. intros p. unfold refcount, handles_on, points_to.
  cbn [foldr blob_].
  destruct (decide (p = 9%positive)) as [-> | H9]; [reflexivity |].
  rewrite lookup_insert_ne by done.
  destruct (decide (p = 7%positive)) as [-> | H7]; [reflexivity |].
  rewrite lookup_singleton_ne by done.
  repeat case_decide; first [reflexivity | congruence].
Defined.

(** ** Page options, whatever the request *)

Section PageOptionsMore.
Context {U : Utility}.
Implicit Types q : gmap string Value.

Lemma get_if_int_cases q key validator d :
  Query.get_if_int q key validator d = d
  \/ validator (Query.get_if_int q key validator d) = true.
Proof.
  unfold Query.get_if_int.
  destruct (q !! key) as [[| i | | | |] |]; try by left.
  destruct (validator i) eqn:Hv; [by right | by left].
Qed.

Lemma get_if_int_delete q key key' validator d :
  key' <> key ->
  Query.get_if_int (delete key' q) key validator d
  = Query.get_if_int q key validator d.
Proof. intros Hne. unfold Query.get_if_int. by rewrite lookup_delete_ne. Qed.

Lemma get_if_int_invalid q key validator d v :
  q !! key = Some (VInt v) -> validator v = false ->
  Query.get_if_int q key validator d
  = Query.get_if_int (delete key q) key validator d.
Proof.
  intros Hq Hv. unfold Query.get_if_int.
  by rewrite Hq, Hv, lookup_delete_eq.
Qed.

(** X4.  Whatever the request holds, on an input of [P >= 1] pages the
    resolved page is [-1], [-2] or in [0 .. P], the resolved [n] is in
    [0 .. P], a page selector ([-1] or [-2]) comes with [n = 1], and a
    single-page input resolves to [(1, 0)]. *)
Theorem get_page_load_options_range q (P : Z) :
  1 <= P <= Cxx.INT_MAX ->
  (fst (get_page_load_options q P) = 1
   \/ fst (get_page_load_options q P) <> 1 /\ 0 <= fst (get_page_load_options q P) <= P)
  /\ (snd (get_page_load_options q P) = -1
      \/ snd (get_page_load_options q P) = -2
      \/ 0 <= snd (get_page_load_options q P) <= P)
  /\ (snd (get_page_load_options q P) < 0 -> fst (get_page_load_options q P) = 1)
  /\ (P = 1 -> get_page_load_options q P = (1, 0)).
Proof.
  intros HP. unfold get_page_load_options.
  destruct (Z.eqb_spec P 1) as [-> | HP1].
  { simpl. repeat split; first [lia | done]. }
  set (page := Query.get_if_int q "page" (page_validator P) 0).
  assert (Hpage : page = -1 \/ page = -2 \/ 0 <= page <= P).
  { destruct (get_if_int_cases q "page" (page_validator P) 0) as [H0 | Hv];
      fold page in H0 || fold page in Hv.
    - lia.
    - unfold page_validator in Hv.
      destruct (Z.eqb_spec page (-1)); [lia |].
      destruct (Z.eqb_spec page (-2)); [lia |].
      simpl in Hv. apply andb_true_iff in Hv as [H1 H2].
      apply Z.leb_le in H1, H2. lia. }
  destruct (Z.eqb_spec page (-1)) as [Hm1 | Hm1];
    [simpl; repeat split; first [lia | intros; exfalso; lia] |].
  destruct (Z.eqb_spec page (-2)) as [Hm2 | Hm2];
    [simpl; repeat split; first [lia | intros; exfalso; lia] |].
  cbn [orb fst snd].
  set (n := Query.get_if_int q "n" (n_validator P) 1).
  assert (Hn : n = -1 \/ 1 <= n <= P).
  { destruct (get_if_int_cases q "n" (n_validator P) 1) as [H0 | Hv];
      fold n in H0 || fold n in Hv.
    - lia.
    - unfold n_validator in Hv.
      destruct (Z.eqb_spec n (-1)); [lia |].
      simpl in Hv. apply andb_true_iff in Hv as [H1 H2].
      apply Z.leb_le in H1, H2. lia. }
  assert (Hsub : Cxx.int_sub P page = P - page).
  { unfold Cxx.int_sub. apply to_int_id.
    unfold Cxx.INT_MIN, Cxx.INT_MAX in *. lia. }
  destruct (Z.eqb_spec n (-1)); rewrite ?Hsub;
    repeat split; first [lia | intros; exfalso; lia].
Qed.

(** X5.  A ["page"] the validator refuses is ignored: the options are the
    ones of the same request without it; and so is an ["n"] the validator
    refuses. *)
Theorem get_page_load_options_invalid q (P v : Z) :
  (q !! "page" = Some (VInt v) -> page_validator P v = false ->
   get_page_load_options q P = get_page_load_options (delete "page" q) P)
  /\ (q !! "n" = Some (VInt v) -> n_validator P v = false ->
      get_page_load_options q P = get_page_load_options (delete "n" q) P).
Proof.
  split; intros Hq Hv; unfold get_page_load_options.
  - rewrite (get_if_int_invalid q "page" _ _ v Hq Hv).
    by rewrite (get_if_int_delete q "n" "page").
  - rewrite (get_if_int_invalid q "n" _ _ v Hq Hv).
    by rewrite (get_if_int_delete q "page" "n").
Qed.

End PageOptionsMore.

Lemma get_page_load_options_range_witness :
  let q : gmap string (@Value Sample.utility) :=
    <["n" := VInt 7]> {["page" := VInt 9]} in
  (fst (get_page_load_options q 3) = 1
   \/ fst (get_page_load_options q 3) <> 1 /\ 0 <= fst (get_page_load_options q 3) <= 3)
  /\ (snd (get_page_load_options q 3) = -1
      \/ snd (get_page_load_options q 3) = -2
      \/ 0 <= snd (get_page_load_options q 3) <= 3)
  /\ (snd (get_page_load_options q 3) < 0 -> fst (get_page_load_options q 3) = 1)
  /\ (3 = 1 -> get_page_load_options q 3 = (1, 0)).
Proof.
  intros q. apply (@get_page_load_options_range Sample.utility q 3).
  unfold Cxx.INT_MAX. lia.
Defined.

Lemma get_page_load_options_invalid_witness :
  let q : gmap string (@Value Sample.utility) :=
    <["n" := VInt 4]> {["page" := VInt 4]} in
  get_page_load_options q 3 = get_page_load_options (delete "page" q) 3
  /\ get_page_load_options q 3 = get_page_load_options (delete "n" q) 3.
Proof.
  intros q. split.
  - apply (proj1 (@get_page_load_options_invalid Sample.utility q 3 4));
      reflexivity.
  - apply (proj2 (@get_page_load_options_invalid Sample.utility q 3 4));
      reflexivity.
Defined.

(** ** The decode pipeline, whatever the input *)

Section DecodeMore.
Context {U : Utility}.
Variable config_ : Config.
Implicit Types q : gmap string Value.

Lemma loads_more_refl loader blob st : loads_more config_ loader blob st st.
Proof.
  repeat split. exists []. split; [by rewrite app_nil_r | constructor].
Qed.

Lemma loads_more_trans loader blob st1 st2 st3 :
  loads_more config_ loader blob st1 st2 ->
  loads_more config_ loader blob st2 st3 ->
  loads_more config_ loader blob st1 st3.
Proof.
  intros (Hq1 & He1 & l1 & Hl1 & Hf1) (Hq2 & He2 & l2 & Hl2 & Hf2).
  repeat split; [congruence | congruence |].
  exists (l1 ++ l2). split.
  - by rewrite Hl2, Hl1, app_assoc.
  - by apply Forall_app.
Qed.

Lemma set_input_buffer blob options :
  opt_buffer (set_input blob options) = blob_ blob.
Proof.
  unfold set_input, Blob_not_null, Blob_is_null. simpl.
  by destruct (blob_ blob).
Qed.

Lemma new_from_source_with_more source blob loader options st :
  opt_fail options = (fail_on_error config_ =? 1) ->
  loads_more config_ loader blob st
    (snd (new_from_source_with source blob loader options st)).
Proof.
  intros Hfail. rewrite new_from_source_with_run. simpl.
  repeat split. exists [(loader, set_input blob options)].
  split; [done |]. constructor; [| constructor].
  repeat split; [apply set_input_buffer | exact Hfail].
Qed.

(** The scan: it only makes load calls, its page is the running best or a
    later one, and it throws nothing but the exception of a page that does
    not decode. *)
Lemma resolve_page_from_more source blob loader comp fuel :
  forall i size target st,
  loads_more config_ loader blob st
    (snd (resolve_page_from config_ source blob loader comp fuel i size target st))
  /\ match fst (resolve_page_from config_ source blob loader comp fuel i size
                                  target st) with
     | Ok t => t = target \/ i <= t
     | Throw e => exists what, e = UnreadableImageException what
     end.
Proof.
  induction fuel as [| fuel IH]; intros i size target st.
  - simpl. split; [apply loads_more_refl | by left].
  - cbn [resolve_page_from]. unfold bind at 1 2.
    pose proof (new_from_source_with_more source blob loader
                  (page_options config_ i) st eq_refl) as Hload.
    rewrite new_from_source_with_run in Hload |- *.
    destruct (VImage_call source loader _) as [what | im].
    + simpl in *. split; [done | by exists what].
    + cbn [snd] in Hload.
      destruct (comp (pixel_size im) size).
      * destruct (IH (i + 1) (pixel_size im) i
                     (add_loads st [(loader, set_input blob (page_options config_ i))]))
          as [Hmore Hres].
        split; [by eapply loads_more_trans |].
        destruct (fst _) as [t | e]; [| done]. right. lia.
      * destruct (IH (i + 1) size target
                     (add_loads st [(loader, set_input blob (page_options config_ i))]))
          as [Hmore Hres].
        split; [by eapply loads_more_trans |].
        destruct (fst _) as [t | e]; [| done]. destruct Hres; [by left | right; lia].
Qed.

(** The page block: it only makes load calls; when it returns, the page is
    the requested one, or a page found by the scan when a selector was
    requested, and the page limit holds; it throws the page-limit exception
    or the exception of a load call. *)
Lemma load_pages_more source blob loader access_method image n_pages n page
    st r st' :
  load_pages config_ source blob loader access_method image n_pages n page st
  = (r, st') ->
  loads_more config_ loader blob st st'
  /\ match r with
     | Ok (im, pg) =>
         (page <> -1 /\ page <> -2 /\ pg = page
          \/ (page = -1 \/ page = -2) /\ 0 <= pg)
         /\ (0 < max_pages config_ -> n <= max_pages config_)
     | Throw e =>
         (e = too_many_pages config_ /\ 0 < max_pages config_)
         \/ exists what, e = UnreadableImageException what
     end.
Proof.
  unfold load_pages.
  destruct (negb (n =? 1) || negb (page =? 0)) eqn:Hblock.
  2: { intros [= <- <-]. split; [apply loads_more_refl |].
       apply orb_false_iff in Hblock as [Hn Hp].
       apply negb_false_iff, Z.eqb_eq in Hn, Hp. split; [left |]; lia. }
  unfold bind at 1.
  destruct ((0 <? max_pages config_) && (max_pages config_ <? n)) eqn:Hlimit.
  { intros [= <- <-]. split; [apply loads_more_refl |]. left. split; [done |].
    apply andb_true_iff in Hlimit as [H0 _]. by apply Z.ltb_lt. }
  assert (Hmax : 0 < max_pages config_ -> n <= max_pages config_).
  { intros H0. apply andb_false_iff in Hlimit as [H | H].
    - apply Z.ltb_ge in H. lia.
    - by apply Z.ltb_ge in H. }
  unfold ret at 1. cbn beta iota. unfold bind at 1.
  assert (Hscan : forall comp,
    loads_more config_ loader blob st
      (snd (resolve_page config_ image n_pages source blob loader comp st))
    /\ match fst (resolve_page config_ image n_pages source blob loader comp st) with
       | Ok t => 0 <= t
       | Throw e => exists what, e = UnreadableImageException what
       end).
  { intros comp. unfold resolve_page.
    destruct (resolve_page_from_more source blob loader comp
                (Z.to_nat (n_pages - 1)) 1 (pixel_size image) 0 st) as [Hm Hr].
    split; [done |]. destruct (fst _); [lia | done]. }
  assert (Hpage :
    exists r1 st1,
      (if page =? -1
       then resolve_page config_ image n_pages source blob loader greater
       else if page =? -2
            then resolve_page config_ image n_pages source blob loader less
            else ret page) st = (r1, st1)
      /\ loads_more config_ loader blob st st1
      /\ match r1 with
         | Ok pg => page <> -1 /\ page <> -2 /\ pg = page
                    \/ (page = -1 \/ page = -2) /\ 0 <= pg
         | Throw e => exists what, e = UnreadableImageException what
         end).
  { destruct (Z.eqb_spec page (-1)) as [Hp | Hp].
    - destruct (Hscan greater) as [Hm Hr].
      destruct (resolve_page _ _ _ _ _ _ greater st) as [r1 st1].
      exists r1, st1. simpl in Hm, Hr. split; [done |]. split; [done |].
      destruct r1; [right; split; [by left | done] | done].
    - destruct (Z.eqb_spec page (-2)) as [Hp2 | Hp2].
      + destruct (Hscan less) as [Hm Hr].
        destruct (resolve_page _ _ _ _ _ _ less st) as [r1 st1].
        exists r1, st1. simpl in Hm, Hr. split; [done |]. split; [done |].
        destruct r1; [right; split; [by right | done] | done].
      + exists (Ok page), st. split; [done |].
        split; [apply loads_more_refl | by left]. }
  destruct Hpage as (r1 & st1 & -> & Hm1 & Hr).
  destruct r1 as [pg | e].
  - unfold bind at 1.
    pose proof (new_from_source_with_more source blob loader
                  (reload_options config_ access_method n pg) st1 eq_refl) as Hload.
    rewrite new_from_source_with_run in Hload |- *.
    destruct (VImage_call source loader _) as [what | im].
    + intros [= <- <-]. split; [by eapply loads_more_trans |].
      right. by exists what.
    + unfold ret. intros [= <- <-]. split; [by eapply loads_more_trans | done].
  - intros [= <- <-]. split; [done | by right].
Qed.

Lemma get_page_load_options_page q (P : Z) :
  snd (get_page_load_options q P) = -1
  \/ snd (get_page_load_options q P) = -2
  \/ 0 <= snd (get_page_load_options q P).
Proof.
  unfold get_page_load_options.
  destruct (Z.eqb_spec P 1); [simpl; lia |].
  set (page := Query.get_if_int q "page" (page_validator P) 0).
  destruct (Z.eqb_spec page (-1)); [simpl; lia |].
  destruct (Z.eqb_spec page (-2)); [simpl; lia |].
  cbn [orb snd]. right. right.
  destruct (get_if_int_cases q "page" (page_validator P) 0) as [H0 | Hv];
    fold page in H0 || fold page in Hv; [lia |].
  unfold page_validator in Hv.
  destruct (Z.eqb_spec page (-1)); [lia |].
  destruct (Z.eqb_spec page (-2)); [lia |].
  simpl in Hv. apply andb_true_iff in Hv as [H1 _]. by apply Z.leb_le in H1.
Qed.

(** What [new_from_source] does after its first load call, in every case. *)
Lemma select_and_resolve_cases source blob loader access_method q image st r st' :
  select_and_resolve config_ source blob loader access_method q image st
  = (r, st') ->
  events st' = events st
  /\ (exists l, loads st' = loads st ++ l
                /\ Forall (load_of config_ loader blob) l)
  /\ match r with
     | Ok im =>
         exists pg,
           query_ st'
           = resolve_query im
               (Query.update
                  (Query.update (query_ st) "n"
                     (VInt (fst (get_page_load_options q (n_pages_of image)))))
                  "page" (VInt pg))
           /\ 0 <= pg
           /\ (0 <= snd (get_page_load_options q (n_pages_of image)) ->
               pg = snd (get_page_load_options q (n_pages_of image)))
           /\ (0 < max_pages config_ ->
               fst (get_page_load_options q (n_pages_of image))
               <= max_pages config_)
           /\ (0 < limit_input_pixels config_ ->
               Cxx.uint64_mul (width im) (height im)
               <= limit_input_pixels config_)
     | Throw e =>
         query_ st' = query_ st
         /\ ((e = too_many_pages config_ /\ 0 < max_pages config_)
             \/ (e = too_many_pixels config_ /\ 0 < limit_input_pixels config_)
             \/ exists what, e = UnreadableImageException what)
     end.
Proof.
  unfold select_and_resolve.
  pose proof (get_page_load_options_page q (n_pages_of image)) as Hsel.
  destruct (get_page_load_options q (n_pages_of image)) as [n page].
  cbn [fst snd] in *. unfold bind at 1.
  destruct (load_pages config_ source blob loader access_method image
                       (n_pages_of image) n page st) as [rp st1] eqn:Hpages.
  destruct (load_pages_more _ _ _ _ _ _ _ _ _ _ _ Hpages)
    as ((Hq1 & He1 & Hl1) & Hres).
  destruct rp as [[im pg] | e].
  2: { intros [= <- <-]. repeat split; try done.
       destruct Hres as [[-> H0] | Hw]; [by left | by right; right]. }
  destruct Hres as [Hpg Hmax].
  unfold bind at 1. unfold check_input_pixels.
  destruct ((0 <? limit_input_pixels config_) && _) eqn:Hlimit.
  { unfold throw. intros [= <- <-]. repeat split; try done.
    right. left. split; [done |].
    apply andb_true_iff in Hlimit as [H0 _]. by apply Z.ltb_lt. }
  unfold bind, ret, query_update, modify_query. cbn beta iota.
  intros [= <- <-]. cbn [events loads query_].
  split; [done |]. split; [done |].
  exists pg. rewrite Hq1. split; [done |].
  split; [| split; [| split]].
  - destruct Hpg as [(Hn1 & Hn2 & ->) | [_ Hpos]]; lia.
  - intros Hpage. destruct Hpg as [(Hn1 & Hn2 & ->) | [Hneg _]]; lia.
  - exact Hmax.
  - intros H0. apply andb_false_iff in Hlimit as [H | H].
    + apply Z.ltb_ge in H. lia.
    + by apply Z.ltb_ge in H.
Qed.

Lemma find_loader_cases source st :
  (exists loader blob, find_loader source st = (Ok (loader, blob), st))
  \/ (vips_foreign_find_load_source source = None
      /\ (vips_source_map_blob source = None
          \/ vips_foreign_find_load_buffer source = None)
      /\ find_loader source st
         = (Throw (InvalidImageException (vips_error_buffer source)), st)).
Proof.
  unfold find_loader.
  destruct (vips_foreign_find_load_source source) as [loader |]; [left; eauto |].
  destruct (vips_source_map_blob source) as [b |]; [| right; eauto].
  destruct (vips_foreign_find_load_buffer source) as [loader |];
    [left; eauto | right; eauto].
Qed.

(** X6.  A page that does not decode stops the scan for the largest or
    smallest page: when the pages [1 .. k] decode and page [k + 1 < P] does
    not, [resolve_page] throws [UnreadableImageException] with the message
    of the codec library, after [k + 1] load calls; the pages behind are
    not loaded. *)
Theorem resolve_page_unreadable
    source blob loader comp image (P : Z) pages what st :
  Z.of_nat (length pages) + 1 < P ->
  pages_decode config_ source blob loader 1 pages ->
  VImage_call source loader
    (set_input blob (page_options config_ (1 + Z.of_nat (length pages))))
  = inl what ->
  resolve_page config_ image P source blob loader comp st
  = (Throw (UnreadableImageException what),
     add_loads st
       (scan_loads config_ blob loader 1 (Z.of_nat (length pages) + 1))).
Proof.
  intros HP Hdec Hfail. unfold resolve_page.
  assert (Hgen : forall pgs fuel i size target st0,
    pages_decode config_ source blob loader i pgs ->
    VImage_call source loader
      (set_input blob (page_options config_ (i + Z.of_nat (length pgs))))
    = inl what ->
    resolve_page_from config_ source blob loader comp
      (length pgs + S fuel) i size target st0
    = (Throw (UnreadableImageException what),
       add_loads st0
         (scan_loads config_ blob loader i (Z.of_nat (length pgs) + 1)))).
  { induction pgs as [| im rest IH]; intros fuel i size target st0 Hd Hf.
    - cbn [length Nat.add resolve_page_from]. unfold bind at 1.
      rewrite new_from_source_with_run.
      simpl in Hf. rewrite Z.add_0_r in Hf. rewrite Hf.
      unfold scan_loads. simpl. reflexivity.
    - cbn [length Nat.add resolve_page_from]. unfold bind at 1.
      rewrite new_from_source_with_run.
      assert (Him : VImage_call source loader
                      (set_input blob (page_options config_ i)) = inr im).
      { specialize (Hd 0%nat im eq_refl). by rewrite Z.add_0_r in Hd. }
      rewrite Him.
      assert (Hrest : pages_decode config_ source blob loader (i + 1) rest).
      { intros k im' Hk. specialize (Hd (S k) im' Hk).
        rewrite <- Hd. do 3 f_equal. lia. }
      assert (Hf' : VImage_call source loader
                      (set_input blob
                         (page_options config_ (i + 1 + Z.of_nat (length rest))))
                    = inl what).
      { rewrite <- Hf. do 3 f_equal. cbn [length]. lia. }
      assert (Hloads : forall st1,
        add_loads (add_loads st1 [(loader, set_input blob (page_options config_ i))])
          (scan_loads config_ blob loader (i + 1) (Z.of_nat (length rest) + 1))
        = add_loads st1
            (scan_loads config_ blob loader i
               (Z.of_nat (length (im :: rest)) + 1))).
      { intros st1. rewrite add_loads_app. f_equal. unfold scan_loads.
        cbn [length]. rewrite Nat2Z.inj_succ.
        rewrite (seqZ_cons i) by lia.
        replace (Z.pred (Z.succ (Z.of_nat (length rest)) + 1))
          with (Z.of_nat (length rest) + 1) by lia.
        by replace (Z.succ i) with (i + 1) by lia. }
      destruct (comp (pixel_size im) size);
        rewrite (IH fuel _ _ _ _ Hrest Hf'); by rewrite Hloads. }
  replace (Z.to_nat (P - 1))
    with (length pages + S (Z.to_nat (P - 1) - length pages - 1))%nat by lia.
  by apply Hgen.
Qed.

(** X7.  An input no loader is found for, neither for the stream nor for
    the mapped buffer, fails with [InvalidImageException], the message
    being the error buffer of the codec library; the parameter store is
    left as it was and no load call is made. *)
Theorem new_from_source_invalid_image source st :
  vips_foreign_find_load_source source = None ->
  vips_source_map_blob source = None
  \/ vips_foreign_find_load_buffer source = None ->
  new_from_source config_ source st
  = (Throw (InvalidImageException (vips_error_buffer source)), st).
Proof.
  intros Hstream Hbuffer. unfold new_from_source, bind at 1, find_loader.
  rewrite Hstream.
  destruct (vips_source_map_blob source) as [b |]; [| done].
  destruct Hbuffer as [? | ->]; done.
Qed.

(** X8.  When the first load call fails, [new_from_source] throws
    [UnreadableImageException] with the message of the codec library: one
    load call was made and the image type is the only parameter stored. *)
Theorem new_from_source_unreadable source st loader blob what :
  find_loader source st = (Ok (loader, blob), st) ->
  VImage_call source loader (snd (first_load config_ st loader blob)) = inl what ->
  new_from_source config_ source st
  = (Throw (UnreadableImageException what),
     add_loads (with_type st loader) [first_load config_ st loader blob]).
Proof.
  intros Hfind Hload. unfold new_from_source.
  unfold bind at 1. rewrite Hfind.
  unfold bind at 1. unfold query_update at 1.
  unfold bind at 1. unfold get_query at 1.
  unfold bind at 1. rewrite new_from_source_with_run.
  unfold first_load, with_type in *. simpl in *. by rewrite Hload.
Qed.

(** X9.  A single-page input is loaded once, whatever page and number of
    pages the request asks for: with the pixel limit not exceeded,
    [new_from_source] returns the image of the first load call, made no
    other load call, and stored [n = 1] and [page = 0]. *)
Theorem new_from_source_single_page source st loader blob image :
  find_loader source st = (Ok (loader, blob), st) ->
  VImage_call source loader (snd (first_load config_ st loader blob)) = inr image ->
  n_pages_of image = 1 ->
  (0 <? limit_input_pixels config_)
  && (limit_input_pixels config_ <? Cxx.uint64_mul (width image) (height image))
  = false ->
  exists st',
    new_from_source config_ source st = (Ok image, st')
    /\ loads st' = loads st ++ [first_load config_ st loader blob]
    /\ query_ st' !! "n" = Some (VInt 1)
    /\ query_ st' !! "page" = Some (VInt 0).
Proof.
  intros Hfind Hload Hone Hlimit.
  rewrite (new_from_source_run _ _ _ _ _ _ Hfind Hload).
  unfold select_and_resolve. rewrite Hone.
  unfold get_page_load_options. cbn [Z.eqb Pos.eqb].
  unfold load_pages. cbn [Z.eqb Pos.eqb negb orb].
  unfold bind at 1. unfold ret at 1.
  unfold bind at 1. unfold check_input_pixels. rewrite Hlimit.
  unfold bind, ret, query_update, modify_query. cbn beta iota.
  eexists. split; [reflexivity |]. cbn [loads query_]. split; [done |].
  rewrite !resolve_query_lookup_other by done. unfold Query.update. split.
  - rewrite lookup_insert_ne by done. by rewrite lookup_insert_eq.
  - by rewrite lookup_insert_eq.
Qed.

(** The three ways [new_from_source] goes on: no loader, a first load call
    that fails, a first load call that returns an image. *)
Lemma new_from_source_cases source st r st' :
  new_from_source config_ source st = (r, st') ->
  (find_loader source st
   = (Throw (InvalidImageException (vips_error_buffer source)), st)
   /\ r = Throw (InvalidImageException (vips_error_buffer source)) /\ st' = st)
  \/ exists loader blob,
       find_loader source st = (Ok (loader, blob), st)
       /\ ((exists what,
               r = Throw (UnreadableImageException what)
               /\ st' = add_loads (with_type st loader)
                                  [first_load config_ st loader blob])
           \/ exists image,
                select_and_resolve config_ source blob loader
                  (access_method_of (query_ (with_type st loader)))
                  (query_ (with_type st loader)) image
                  (add_loads (with_type st loader)
                             [first_load config_ st loader blob])
                = (r, st')).
Proof.
  destruct (find_loader_cases source st)
    as [(loader & blob & Hfind) | (_ & _ & Hfind)].
  2: { unfold new_from_source, bind at 1. rewrite Hfind.
       intros [= <- <-]. by left. }
  intros Hrun. right. exists loader, blob. split; [done |].
  destruct (VImage_call source loader (snd (first_load config_ st loader blob)))
    as [what | image] eqn:Hload.
  - left. exists what. revert Hrun. unfold new_from_source.
    unfold bind at 1. rewrite Hfind.
    unfold bind at 1. unfold query_update at 1.
    unfold bind at 1. unfold get_query at 1.
    unfold bind at 1. rewrite new_from_source_with_run.
    unfold first_load, with_type in *. simpl in *. rewrite Hload.
    by intros [= <- <-].
  - right. exists image.
    by rewrite <- (new_from_source_run _ _ _ _ _ _ Hfind Hload).
Qed.

(** X10.  The exceptions of [new_from_source]: it throws
    [InvalidImageException], [UnreadableImageException], the page-limit
    exception, and that only under a positive page limit, or the
    pixel-limit exception, and that only under a positive pixel limit;
    nothing else. *)
Theorem new_from_source_exceptions source st e st' :
  new_from_source config_ source st = (Throw e, st') ->
  (exists what, e = InvalidImageException what)
  \/ (exists what, e = UnreadableImageException what)
  \/ (e = too_many_pages config_ /\ 0 < max_pages config_)
  \/ (e = too_many_pixels config_ /\ 0 < limit_input_pixels config_).
Proof.
  intros Hrun.
  destruct (new_from_source_cases _ _ _ _ Hrun)
    as [(_ & [= ->] & _)
       | (loader & blob & _ & [(what & [= ->] & _) | (image & Hsel)])].
  - left. eauto.
  - right. left. eauto.
  - destruct (select_and_resolve_cases _ _ _ _ _ _ _ _ _ Hsel)
      as (_ & _ & _ & [Hp | [Hx | Hw]]); tauto.
Qed.

(** X11.  When [new_from_source] returns an image, the parameter store
    holds the resolved [n] and a page that is not negative (a page selector
    [-1] or [-2] was replaced by the page found), the width and the height
    of that image as [input_width] and [input_height], and the limits hold:
    [n] does not exceed a positive page limit and the area of the image
    does not exceed a positive pixel limit.  No event was emitted. *)
Theorem new_from_source_success source st image st' :
  new_from_source config_ source st = (Ok image, st') ->
  (exists n page,
      query_ st' !! "n" = Some (VInt n)
      /\ query_ st' !! "page" = Some (VInt page)
      /\ 0 <= page
      /\ (0 < max_pages config_ -> n <= max_pages config_))
  /\ query_ st' !! "input_width" = Some (VInt (width image))
  /\ query_ st' !! "input_height" = Some (VInt (height image))
  /\ (0 < limit_input_pixels config_ ->
      Cxx.uint64_mul (width image) (height image) <= limit_input_pixels config_)
  /\ events st' = events st.
Proof.
  intros Hrun.
  destruct (new_from_source_cases _ _ _ _ Hrun)
    as [(_ & [=] & _)
       | (loader & blob & _ & [(what & [=] & _) | (image0 & Hsel)])].
  destruct (select_and_resolve_cases _ _ _ _ _ _ _ _ _ Hsel)
    as (Hev & _ & pg & Hq & Hpg & _ & Hmax & Hlimit).
  split; [| split; [| split; [| split]]].
  - eexists _, pg. rewrite Hq.
    rewrite !resolve_query_lookup_other by done. unfold Query.update.
    split; [| split; [| split]].
    + rewrite lookup_insert_ne by done. by rewrite lookup_insert_eq.
    + by rewrite lookup_insert_eq.
    + exact Hpg.
    + exact Hmax.
  - rewrite Hq. unfold resolve_query.
    destruct (apply_exif_orientation _ _ _ _) as [[rotate flip] flop].
    destruct (pixel_ratio_in_range _); destruct (_ && _);
      unfold Query.update; rewrite lookup_insert_ne by done;
      by rewrite lookup_insert_eq.
  - rewrite Hq. unfold resolve_query.
    destruct (apply_exif_orientation _ _ _ _) as [[rotate flip] flop].
    destruct (pixel_ratio_in_range _); destruct (_ && _);
      unfold Query.update; by rewrite lookup_insert_eq.
  - exact Hlimit.
  - by rewrite Hev.
Qed.

(** X12.  Every load call of a request is made with the loader found for
    the input, on the mapped buffer exactly when the buffer-based loader is
    used, and with the configured fail flag; [new_from_source] keeps the
    load calls made before, and emits no event, whatever the outcome. *)
Theorem new_from_source_loads source st loader blob r st' :
  find_loader source st = (Ok (loader, blob), st) ->
  new_from_source config_ source st = (r, st') ->
  events st' = events st
  /\ exists l,
       loads st' = loads st ++ first_load config_ st loader blob :: l
       /\ Forall (load_of config_ loader blob)
                 (first_load config_ st loader blob :: l).
Proof.
  intros Hfind Hrun.
  assert (Hfirst : load_of config_ loader blob (first_load config_ st loader blob)).
  { unfold load_of, first_load. cbn [fst snd].
    split; [done |]. split; [apply set_input_buffer | done]. }
  destruct (new_from_source_cases _ _ _ _ Hrun)
    as [(Hno & _) | (loader' & blob' & Hfind' & Hcases)].
  { by rewrite Hfind in Hno. }
  rewrite Hfind in Hfind'. injection Hfind' as <- <-.
  destruct Hcases as [(what & _ & ->) | (image & Hsel)].
  - split; [done |]. exists []. split; [done |]. by constructor.
  - destruct (select_and_resolve_cases _ _ _ _ _ _ _ _ _ Hsel)
      as (Hev & (l & Hl & Hall) & _).
    split; [done |]. exists l. split.
    + rewrite Hl. simpl. by rewrite <- app_assoc.
    + by constructor.
Qed.

End DecodeMore.

Lemma resolve_page_unreadable_witness :
  let st := Inputs.plain in
  @resolve_page Sample.utility Sample.config (Sample.page_of_three 10 10) 3
    Inputs.broken_third Blob_default "gifload_source" greater st
  = (Throw (UnreadableImageException "bad frame"),
     add_loads st
       (@scan_loads Sample.utility Sample.config Blob_default "gifload_source" 1
          (Z.of_nat (length [Sample.page_of_three 20 30]) + 1))).
Proof.
  intros st.
  apply (@resolve_page_unreadable Sample.utility Sample.config
           Inputs.broken_third Blob_default "gifload_source" greater
           (Sample.page_of_three 10 10) 3 [Sample.page_of_three 20 30]
           "bad frame" st).
  - simpl. lia.
  - intros [| k] im Hk; simpl in Hk; try discriminate.
    injection Hk as <-. reflexivity.
  - reflexivity.
Defined.

Lemma new_from_source_invalid_image_witness :
  @new_from_source Sample.utility Sample.config Inputs.unknown Inputs.plain
  = (Throw (InvalidImageException (vips_error_buffer Inputs.unknown)),
     Inputs.plain).
Proof.
  apply (@new_from_source_invalid_image Sample.utility Sample.config
           Inputs.unknown Inputs.plain).
  - reflexivity.
  - left. reflexivity.
Defined.

Lemma new_from_source_unreadable_witness :
  @new_from_source Sample.utility Sample.config Inputs.corrupt Inputs.plain
  = (Throw (UnreadableImageException "premature end of data"),
     add_loads (@with_type Sample.utility Inputs.plain "jpegload_source")
       [@first_load Sample.utility Sample.config Inputs.plain
          "jpegload_source" Blob_default]).
Proof.
  apply (@new_from_source_unreadable Sample.utility Sample.config
           Inputs.corrupt Inputs.plain "jpegload_source" Blob_default
           "premature end of data"); reflexivity.
Defined.

Lemma new_from_source_single_page_witness :
  let st := @mkState Sample.utility Inputs.paged [] [] in
  exists st',
    @new_from_source Sample.utility Sample.config Inputs.photo st
    = (Ok (Sample.still 640 480 None false), st')
    /\ loads st'
       = loads st ++ [@first_load Sample.utility Sample.config st
                        "jpegload_source" Blob_default]
    /\ query_ st' !! "n" = Some (VInt 1)
    /\ query_ st' !! "page" = Some (VInt 0).
Proof.
  intros st.
  apply (@new_from_source_single_page Sample.utility Sample.config
           Inputs.photo st "jpegload_source" Blob_default
           (Sample.still 640 480 None false)); reflexivity.
Defined.

Lemma new_from_source_exceptions_witness :
  let e := UnreadableImageException "premature end of data" in
  (exists what, e = InvalidImageException what)
  \/ (exists what, e = UnreadableImageException what)
  \/ (e = @too_many_pages Sample.config /\ 0 < max_pages Sample.config)
  \/ (e = @too_many_pixels Sample.config
      /\ 0 < limit_input_pixels Sample.config).
Proof.
  intros e.
  apply (@new_from_source_exceptions Sample.utility Sample.config
           Inputs.corrupt Inputs.plain e
           (snd (@new_from_source Sample.utility Sample.config Inputs.corrupt
                   Inputs.plain))).
  reflexivity.
Defined.

Lemma new_from_source_success_witness :
  let st := @mkState Sample.utility Sample.largest_page [] [] in
  let image := Sample.page_of_three 20 30 in
  let st' := snd (@new_from_source Sample.utility Sample.config
                    Sample.three_pages st) in
  (exists n page,
      query_ st' !! "n" = Some (VInt n)
      /\ query_ st' !! "page" = Some (VInt page)
      /\ 0 <= page
      /\ (0 < max_pages Sample.config -> n <= max_pages Sample.config))
  /\ query_ st' !! "input_width" = Some (VInt (width image))
  /\ query_ st' !! "input_height" = Some (VInt (height image))
  /\ (0 < limit_input_pixels Sample.config ->
      Cxx.uint64_mul (width image) (height image)
      <= limit_input_pixels Sample.config)
  /\ events st' = events st.
Proof.
  intros st image st'.
  apply (@new_from_source_success Sample.utility Sample.config
           Sample.three_pages st image st').
  reflexivity.
Defined.

Lemma new_from_source_loads_witness :
  let st := @mkState Sample.utility Sample.largest_page [] [] in
  let run := @new_from_source Sample.utility Sample.config Sample.three_pages st in
  events (snd run) = events st
  /\ exists l,
       loads (snd run)
       = loads st ++ @first_load Sample.utility Sample.config st
                       "gifload_source" Blob_default :: l
       /\ Forall (@load_of Sample.utility Sample.config "gifload_source"
                    Blob_default)
                 (@first_load Sample.utility Sample.config st
                    "gifload_source" Blob_default :: l).
Proof.
  intros st run.
  apply (@new_from_source_loads Sample.utility Sample.config
           Sample.three_pages st "gifload_source" Blob_default
           (fst run) (snd run)).
  - reflexivity.
  - apply surjective_pairing.
Defined.

(** ** What [resolve_query] stores, whatever the request *)

Section ResolveQueryMore.
Context {U : Utility}.
Implicit Types q : gmap string Value.

Lemma get_bool_delete_ne q key key' d :
  key' <> key -> Query.get_bool (delete key' q) key d = Query.get_bool q key d.
Proof. intros Hne. unfold Query.get_bool. by rewrite lookup_delete_ne. Qed.

Lemma get_float_delete_ne q key key' d :
  key' <> key -> Query.get_float (delete key' q) key d = Query.get_float q key d.
Proof. intros Hne. unfold Query.get_float. by rewrite lookup_delete_ne. Qed.

Lemma get_Coordinate_delete_ne q key key' d :
  key' <> key ->
  Query.get_Coordinate (delete key' q) key d = Query.get_Coordinate q key d.
Proof. intros Hne. unfold Query.get_Coordinate. by rewrite lookup_delete_ne. Qed.

(** X13.  Whatever the request and the image, the angle [resolve_query]
    stores is in [0, 360) and the target width and height it stores are in
    [0, VIPS_MAX_COORD]; this holds also where the rotation or the scaled
    dimensions leave the range of [int]. *)
Theorem resolve_query_bounds image q :
  exists angle w h,
    resolve_query image q !! "angle" = Some (VInt angle)
    /\ resolve_query image q !! "w" = Some (VInt w)
    /\ resolve_query image q !! "h" = Some (VInt h)
    /\ 0 <= angle < 360
    /\ 0 <= w <= VIPS_MAX_COORD /\ 0 <= h <= VIPS_MAX_COORD.
Proof.
  assert (Hrange : forall v, 0 <= Cxx.clamp v 0 VIPS_MAX_COORD <= VIPS_MAX_COORD).
  { intros v. apply clamp_range. unfold VIPS_MAX_COORD. lia. }
  assert (Hangle : forall r, 0 <= normalize_angle r < 360).
  { intros r. rewrite normalize_angle_mod. apply Z.mod_pos_bound. lia. }
  unfold resolve_query.
  destruct (apply_exif_orientation _ _ _ _) as [[rotate flip] flop].
  destruct (pixel_ratio_in_range _); destruct (_ && _);
    eexists _, _, _; unfold Query.update;
    (split; [rewrite !lookup_insert_ne by done; by rewrite lookup_insert_eq |]);
    (split; [rewrite !lookup_insert_ne by done; by rewrite lookup_insert_eq |]);
    (split; [rewrite !lookup_insert_ne by done; by rewrite lookup_insert_eq |]);
    auto.
Qed.

(** X14.  The mirror flags [resolve_query] stores are the requested ones or
    the ones the EXIF code sets: the flip flag is set exactly when it was
    requested or the code is 5 or 7, the flop flag exactly when it was
    requested or the code is 2 or 4. *)
Theorem resolve_query_flags image q :
  resolve_query image q !! "flip"
  = Some (VBool (Query.get_bool q "flip" false
                 || exif_flip (exif_orientation image)))
  /\ resolve_query image q !! "flop"
     = Some (VBool (Query.get_bool q "flop" false
                    || exif_flop (exif_orientation image))).
Proof.
  pose proof (resolve_query_orientation image q) as Hres. cbv zeta in Hres.
  rewrite apply_exif_orientation_table in Hres.
  by destruct Hres as (_ & Hflip & Hflop).
Qed.

(** X15.  A rotation that is not a multiple of 90 is ignored: what
    [resolve_query] stores is what it stores for the same request without
    the ["ro"] parameter. *)
Theorem resolve_query_invalid_rotation image q (r : Z) :
  q !! "ro" = Some (VInt r) -> rotate_validator r = false ->
  resolve_query image (delete "ro" q) = delete "ro" (resolve_query image q).
Proof.
  intros Hro Hinvalid. unfold resolve_query. cbv zeta.
  rewrite !get_bool_delete_ne by done.
  rewrite (get_if_int_invalid q "ro" rotate_validator 0 r Hro Hinvalid).
  destruct (apply_exif_orientation _ _ _ _) as [[rotate flip] flop].
  rewrite !get_Coordinate_update_ne, !get_float_update_ne,
    !get_bool_update_ne by done.
  rewrite !get_Coordinate_delete_ne, !get_float_delete_ne,
    !get_bool_delete_ne by done.
  destruct (pixel_ratio_in_range _); destruct (_ && _);
    unfold Query.update; by rewrite !delete_insert_ne by done.
Qed.

(** X16.  [resolve_query] writes seven parameters, ["angle"], ["flip"],
    ["flop"], ["w"], ["h"], ["input_width"] and ["input_height"], and
    leaves every other parameter of the store as it was. *)
Theorem resolve_query_keeps_parameters image q key :
  key ∉ ["angle"; "flip"; "flop"; "w"; "h"; "input_width"; "input_height"] ->
  resolve_query image q !! key = q !! key.
Proof.
  intros Hkey.
  apply resolve_query_lookup_other; intros ->; apply Hkey;
    repeat first [apply list_elem_of_here | apply list_elem_of_further].
Qed.

End ResolveQueryMore.

Lemma resolve_query_invalid_rotation_witness :
  let q : gmap string (@Value Sample.utility) := {["ro" := VInt 45]} in
  let image := Sample.still 100 50 (Some 6) false in
  @resolve_query Sample.utility image (delete "ro" q)
  = delete "ro" (@resolve_query Sample.utility image q).
Proof.
  intros q image.
  apply (@resolve_query_invalid_rotation Sample.utility image q 45);
    reflexivity.
Defined.

Lemma resolve_query_keeps_parameters_witness :
  let q : gmap string (@Value Sample.utility) := {["precrop" := VBool true]} in
  @resolve_query Sample.utility (Sample.still 100 50 None false) q !! "precrop"
  = q !! "precrop".
Proof.
  intros q.
  apply (@resolve_query_keeps_parameters Sample.utility
           (Sample.still 100 50 None false) q "precrop").
  repeat (apply not_elem_of_cons; split; [discriminate |]).
  apply not_elem_of_nil.
Defined.

(** ** What [write_to_target] attaches, sets up and throws *)

Section SaveMore.
Context {U : Utility}.
Variable config_ : Config.
Implicit Types q : gmap string Value.



Lemma write_to_target_throw image e st :
  attach_metadata (query_ st) image = Throw e ->
  write_to_target config_ image st = (Throw e, st).
Proof.
  intros Hattach. unfold write_to_target.
  unfold bind at 1. unfold get_query at 1.
  unfold bind at 1. unfold lift at 1. by rewrite Hattach.
Qed.

Lemma to_int_config (v lo hi : Z) :
  lo <= v <= hi -> 0 <= lo -> hi <= 100 -> lo <= Cxx.to_int v <= hi.
Proof.
  intros Hv Hlo Hhi. rewrite to_int_id; [done |].
  unfold Cxx.INT_MIN, Cxx.INT_MAX. lia.
Qed.

Lemma get_if_int_range q key validator d (lo hi : Z) :
  (forall v, validator v = true -> lo <= v <= hi) -> lo <= d <= hi ->
  lo <= Query.get_if_int q key validator d <= hi.
Proof.
  intros Hvalid Hd.
  destruct (get_if_int_cases q key validator d) as [-> | Hv]; auto.
Qed.

Lemma quality_validator_range (v : Z) :
  quality_validator v = true -> 1 <= v <= 100.
Proof. unfold quality_validator. lia. Qed.

Lemma level_validator_range (v : Z) :
  level_validator v = true -> 0 <= v <= 9.
Proof. unfold level_validator. lia. Qed.


(** X17.  [write_to_target] attaches the page height only for more than
    one page and the loop count only when it is not negative: with
    [n <= 1] the page height of the working copy is the one of the image,
    with a negative or absent loop count so is its loop count; the pixels,
    the page count, the orientation and the alpha channel are never
    touched. *)
Theorem attach_metadata_fields q image copy :
  attach_metadata q image = Ok copy ->
  (Query.get_int1 q "n" <= 1 -> meta_page_height copy = meta_page_height image)
  /\ (1 < Query.get_int1 q "n" ->
      meta_page_height copy = Some (Query.get_int1 q "page_height"))
  /\ (Query.get_int q "loop" (-1) < 0 -> meta_loop copy = meta_loop image)
  /\ (0 <= Query.get_int q "loop" (-1) ->
      meta_loop copy = Some (Query.get_int q "loop" (-1)))
  /\ width copy = width image /\ height copy = height image
  /\ meta_n_pages copy = meta_n_pages image
  /\ meta_orientation copy = meta_orientation image
  /\ has_alpha copy = has_alpha image.
Proof.
  unfold attach_metadata.
  destruct (resolve_delays q) as [[delays |] | e]; [| | done];
    intros [= <-];
    destruct (Z.ltb_spec 1 (Query.get_int1 q "n"));
    destruct (Z.leb_spec 0 (Query.get_int q "loop" (-1)));
    simpl; repeat split; intros; try reflexivity; lia.
Qed.

(** X18.  A list of two or more delays, none negative, is attached as it
    is, whatever the page count in the store: it is neither cut nor filled
    up to the page count, and attaching it does not fail. *)
Theorem attach_metadata_many_delays q image (v : list Z) :
  q !! "delay" = Some (VIntVector v) -> (2 <= length v)%nat ->
  Forall (fun d => 0 <= d) v ->
  exists copy, attach_metadata q image = Ok copy
               /\ meta_delay copy = Some v.
Proof.
  intros Hreq Hlen Hpos.
  assert (Hvalid : delay_validator v = true).
  { unfold delay_validator. apply forallb_forall. intros d Hd.
    apply Z.leb_le. rewrite Forall_forall in Hpos. apply Hpos.
    by apply list_elem_of_In. }
  pose proof (attach_metadata_delay q image) as Hdelay.
  unfold resolve_delays, Query.get_if_vector in Hdelay.
  rewrite Hreq, Hvalid in Hdelay.
  destruct v as [| d [| d' v]]; simpl in Hlen; try lia. exact Hdelay.
Qed.

(** X19.  A single valid delay with a page count of zero or less in the
    store asks the vector for [n - 1] more elements, a count that as a
    [size_t] is beyond the maximal size: [write_to_target] throws
    [std::length_error], and nothing is set up or written. *)
Theorem write_to_target_length_error image st (d n : Z) :
  query_ st !! "delay" = Some (VIntVector [d]) -> 0 <= d ->
  Query.get_int1 (query_ st) "n" = n -> Cxx.INT_MIN < n <= 0 ->
  write_to_target config_ image st = (Throw std_length_error, st).
Proof.
  intros Hreq Hd Hn Hrange. apply write_to_target_throw.
  unfold attach_metadata, resolve_delays, Query.get_if_vector.
  rewrite Hreq. unfold delay_validator. cbn [forallb].
  destruct (Z.leb_spec 0 d); [| lia]. cbn [andb]. rewrite Hn.
  unfold Cxx.int_sub. rewrite to_int_id
    by (unfold Cxx.INT_MIN, Cxx.INT_MAX in *; lia).
  unfold vector_insert_end. cbn [length].
  assert (Hcount : Cxx.to_uint64 (n - 1) = 2 ^ 64 + (n - 1)).
  { unfold Cxx.to_uint64.
    replace (n - 1) with ((2 ^ 64 + (n - 1)) + (-1) * 2 ^ 64) at 1 by lia.
    rewrite Z.mod_add by lia. apply Z.mod_small.
    unfold Cxx.INT_MIN in *. lia. }
  rewrite Hcount.
  destruct (Z.ltb_spec (Cxx.vector_max_size - Z.of_nat 1) (2 ^ 64 + (n - 1)));
    [done |].
  unfold Cxx.vector_max_size, Cxx.INT_MIN in *. lia.
Qed.


(** X21.  With the configured defaults in their ranges, the save options
    of every output format keep the options they were given ([strip]
    among them) at their head, and what they add holds only a quality [Q]
    in [1, 100] and only a numeric compression level in [0, 9], whatever
    the request asks for. *)
Theorem append_save_options_valid (output : Output) q (options : SaveOptions) :
  1 <= jpeg_quality config_ <= 100 -> 1 <= webp_quality config_ <= 100 ->
  1 <= avif_quality config_ <= 100 -> 1 <= tiff_quality config_ <= 100 ->
  0 <= zlib_level config_ <= 9 ->
  exists more,
    append_save_options config_ output q options = options ++ more
    /\ (forall v, ("Q", OInt v) ∈ more -> 1 <= v <= 100)
    /\ (forall v, ("compression", OInt v) ∈ more -> 0 <= v <= 9).
Proof.
  intros Hjpeg Hwebp Havif Htiff Hzlib.
  assert (Hq : forall d, 1 <= d <= 100 ->
            1 <= Query.get_if_int q "q" quality_validator (Cxx.to_int d) <= 100).
  { intros d Hd. apply get_if_int_range; [apply quality_validator_range |].
    apply to_int_config; lia. }
  assert (Hl : 0 <= Query.get_if_int q "l" level_validator
                      (Cxx.to_int (zlib_level config_)) <= 9).
  { apply get_if_int_range; [apply level_validator_range |].
    apply to_int_config; lia. }
  unfold append_save_options, append_save_options_Jpeg, append_save_options_Png,
    append_save_options_Webp, append_save_options_Avif,
    append_save_options_Tiff, append_save_options_Gif.
  destruct output; eexists; (split; [reflexivity |]); split; intros v Hin;
    repeat (apply elem_of_cons in Hin as [Heq | Hin];
            [by (discriminate Heq || (injection Heq as ->; auto)) |]);
    by apply elem_of_nil in Hin.
Qed.

End SaveMore.

Lemma attach_metadata_fields_witness :
  let q := Sample.delayed [] 1 in
  let image := Sample.still 10 30 None false in
  (Query.get_int1 q "n" <= 1 -> meta_page_height image = meta_page_height image)
  /\ (1 < Query.get_int1 q "n" ->
      meta_page_height image = Some (Query.get_int1 q "page_height"))
  /\ (Query.get_int q "loop" (-1) < 0 -> meta_loop image = meta_loop image)
  /\ (0 <= Query.get_int q "loop" (-1) ->
      meta_loop image = Some (Query.get_int q "loop" (-1)))
  /\ width image = width image /\ height image = height image
  /\ meta_n_pages image = meta_n_pages image
  /\ meta_orientation image = meta_orientation image
  /\ has_alpha image = has_alpha image.
Proof.
  intros q image.
  apply (@attach_metadata_fields Sample.utility q image image).
  reflexivity.
Defined.

Lemma attach_metadata_many_delays_witness :
  let image := Sample.still 10 30 None false in
  exists copy,
    @attach_metadata Sample.utility (Sample.delayed [50; 60] 5) image = Ok copy
    /\ meta_delay copy = Some [50; 60].
Proof.
  intros image.
  apply (@attach_metadata_many_delays Sample.utility
           (Sample.delayed [50; 60] 5) image [50; 60]).
  - reflexivity.
  - simpl. lia.
  - repeat constructor; lia.
Defined.

Lemma write_to_target_length_error_witness :
  let st := @mkState Sample.utility (Sample.delayed [50] 0) [] [] in
  @write_to_target Sample.utility Sample.config
    (Sample.still 10 30 None false) st
  = (Throw std_length_error, st).
Proof.
  intros st.
  apply (@write_to_target_length_error Sample.utility Sample.config
           (Sample.still 10 30 None false) st 50 0).
  - reflexivity.
  - lia.
  - reflexivity.
  - unfold Cxx.INT_MIN. lia.
Defined.


Lemma append_save_options_valid_witness :
  let q : gmap string (@Value Sample.utility) := {["q" := VInt 500]} in
  exists more,
    @append_save_options Sample.utility Sample.config Jpeg q
      [("strip", OBool true)]
    = [("strip", OBool true)] ++ more
    /\ (forall v, ("Q", OInt v) ∈ more -> 1 <= v <= 100)
    /\ (forall v, ("compression", OInt v) ∈ more -> 0 <= v <= 9).
Proof.
  intros q.
  apply (@append_save_options_valid Sample.utility Sample.config Jpeg q
           [("strip", OBool true)]); simpl; lia.
Defined.

(** ** The error response of [ngx_weserv_error_chain] *)

Section ErrorChain.
Variable env : Nginx.Env.
Implicit Types (r : Nginx.Request) (st : Nginx.Status).
Implicit Types upstream_ctx : option (option string).

(** The redirect target the function settles on: the empty string when
    there is none. *)
Lemma ngx_weserv_error_chain_cases r upstream_ctx st :
  let content_length := Z.of_nat (String.length (Nginx.to_json st)) in
  exists http_status calls,
    (http_status = Nginx.http_code st /\ calls = []
     \/ exists redirect_uri target,
          Nginx.redirect_arg r = Some redirect_uri
          /\ target <> EmptyString /\ calls = [target]
          /\ (if Nginx.not_literal_one redirect_uri
              then target = Nginx.parse_url env redirect_uri
              else upstream_ctx = Some (Some target))
          /\ http_status
             = if Nginx.set_location_header env target
               then Nginx.NGX_HTTP_MOVED_TEMPORARILY else Nginx.http_code st)
    /\ Nginx.ngx_weserv_error_chain env r upstream_ctx st
       = if negb (Nginx.ngx_create_temp_buf env content_length)
         then (None,
               Nginx.mkRequest (Nginx.ngx_http_arg r) (Nginx.headers_out r)
                 (Nginx.location_calls r ++ calls))
         else
           let r' :=
             Nginx.mkRequest (Nginx.ngx_http_arg r)
               (Nginx.mkHeadersOut http_status 16 "application/json" None
                  content_length)
               (Nginx.location_calls r ++ calls) in
           if negb (Nginx.ngx_alloc_chain_link env) then (None, r')
           else (Some (Nginx.mkChain (Nginx.mkBuf (Nginx.to_json st) true true) []),
                 r').
Proof.
  intros content_length. unfold Nginx.ngx_weserv_error_chain.
  assert (Hsame : forall http_status,
    (let '(http_status, r0) := (http_status, r) in
     if negb (Nginx.ngx_create_temp_buf env content_length) then (None, r0)
     else
       let r1 :=
         Nginx.mkRequest (Nginx.ngx_http_arg r0)
           (Nginx.mkHeadersOut http_status
              (Z.of_nat (String.length "application/json"))
              "application/json" None content_length)
           (Nginx.location_calls r0) in
       if negb (Nginx.ngx_alloc_chain_link env) then (None, r1)
       else (Some (Nginx.mkChain (Nginx.mkBuf (Nginx.to_json st) true true) []),
             r1))
    = if negb (Nginx.ngx_create_temp_buf env content_length)
      then (None,
            Nginx.mkRequest (Nginx.ngx_http_arg r) (Nginx.headers_out r)
              (Nginx.location_calls r ++ []))
      else
        let r' :=
          Nginx.mkRequest (Nginx.ngx_http_arg r)
            (Nginx.mkHeadersOut http_status 16 "application/json" None
               content_length)
            (Nginx.location_calls r ++ []) in
        if negb (Nginx.ngx_alloc_chain_link env) then (None, r')
        else (Some (Nginx.mkChain (Nginx.mkBuf (Nginx.to_json st) true true) []),
              r')).
  { intros http_status. rewrite app_nil_r. by destruct r. }
  destruct (Nginx.redirect_arg r) as [redirect_uri |] eqn:Harg.
  - set (target := if Nginx.not_literal_one redirect_uri
                   then Nginx.parse_url env redirect_uri
                   else match upstream_ctx with
                        | Some (Some url) => url
                        | _ => EmptyString
                        end).
    destruct (Z.ltb_spec 0 (Z.of_nat (String.length target))) as [Hlen | Hlen].
    + assert (Htarget : target <> EmptyString).
      { intros Heq. rewrite Heq in Hlen. simpl in Hlen. lia. }
      exists (if Nginx.set_location_header env target
              then Nginx.NGX_HTTP_MOVED_TEMPORARILY else Nginx.http_code st),
             [target].
      split.
      * right. exists redirect_uri, target. repeat split; try done.
        subst target. destruct (Nginx.not_literal_one redirect_uri); [done |].
        by destruct upstream_ctx as [[url |] |].
      * by destruct (Nginx.set_location_header env target).
    + exists (Nginx.http_code st), []. split; [by left |]. apply Hsame.
  - exists (Nginx.http_code st), []. split; [by left |]. apply Hsame.
Qed.

(** X22.  When [ngx_weserv_error_chain] returns a chain, it is a single
    link whose buffer holds the JSON document of the status and is marked
    last; the response has the content type [application/json] and the
    length of the document, with or without a redirect; its status is the
    HTTP code of the status or 302; and [set_location_header] was called
    at most once. *)
Theorem ngx_weserv_error_chain_response r upstream_ctx st out r' :
  Nginx.ngx_weserv_error_chain env r upstream_ctx st = (Some out, r') ->
  Nginx.buf out = Nginx.mkBuf (Nginx.to_json st) true true
  /\ Nginx.next out = []
  /\ Nginx.content_type (Nginx.headers_out r') = "application/json"
  /\ Nginx.content_type_len (Nginx.headers_out r') = 16
  /\ Nginx.content_type_lowcase (Nginx.headers_out r') = None
  /\ Nginx.content_length_n (Nginx.headers_out r')
     = Z.of_nat (String.length (Nginx.to_json st))
  /\ (Nginx.status (Nginx.headers_out r') = Nginx.http_code st
      \/ Nginx.status (Nginx.headers_out r') = 302)
  /\ (Nginx.location_calls r' = Nginx.location_calls r
      \/ exists target,
           Nginx.location_calls r' = Nginx.location_calls r ++ [target]).
Proof.
  destruct (ngx_weserv_error_chain_cases r upstream_ctx st)
    as (http_status & calls & Hredirect & ->).
  cbv zeta. destruct (negb (Nginx.ngx_create_temp_buf env _)); [done |].
  destruct (negb (Nginx.ngx_alloc_chain_link env)); [done |].
  intros [= <- <-]. simpl. repeat split.
  - destruct Hredirect as [[-> _] | (u & target & _ & _ & _ & _ & ->)];
      [by left |].
    destruct (Nginx.set_location_header env target); [by right | by left].
  - destruct Hredirect as [[_ ->] | (u & target & _ & _ & -> & _)].
    + left. apply app_nil_r.
    + right. by exists target.
Qed.

(** X23.  The response is a redirect exactly when a redirect target was
    found, is not empty, and [set_location_header] took it: for a status
    whose code is not 302, the response status is 302 if and only if
    [set_location_header] was called, on a non-empty target, and returned
    [NGX_OK]; otherwise the response status is the code of the status. *)
Theorem ngx_weserv_error_chain_redirect r upstream_ctx st out r' :
  Nginx.ngx_weserv_error_chain env r upstream_ctx st = (Some out, r') ->
  Nginx.http_code st <> 302 ->
  (Nginx.status (Nginx.headers_out r') = 302
   <-> exists target,
         Nginx.location_calls r' = Nginx.location_calls r ++ [target]
         /\ target <> EmptyString
         /\ Nginx.set_location_header env target = true)
  /\ (Nginx.status (Nginx.headers_out r') <> 302 ->
      Nginx.status (Nginx.headers_out r') = Nginx.http_code st).
Proof.
  destruct (ngx_weserv_error_chain_cases r upstream_ctx st)
    as (http_status & calls & Hredirect & ->).
  cbv zeta. destruct (negb (Nginx.ngx_create_temp_buf env _)); [done |].
  destruct (negb (Nginx.ngx_alloc_chain_link env)); [done |].
  intros [= <- <-] Hcode. simpl.
  destruct Hredirect as [[-> ->] | (u & target & _ & Hne & -> & _ & ->)].
  - split; [| done]. split; [done |].
    intros (target & Hcalls & _). rewrite app_nil_r in Hcalls.
    apply (f_equal length) in Hcalls. rewrite length_app in Hcalls.
    simpl in Hcalls. lia.
  - destruct (Nginx.set_location_header env target) eqn:Hset.
    + split; [| done]. split; [| done]. intros _. by exists target.
    + split; [| done]. split; [done |].
      intros (target' & Hcalls & _ & Hset').
      apply app_inv_head in Hcalls. injection Hcalls as ->. congruence.
Qed.

(** X24.  Without a redirect parameter, and with the parameter ["1"] when
    there is no upstream context or no upstream request, nothing is
    redirected: [set_location_header] is not called, and a response that
    is built has the code of the status. *)
Theorem ngx_weserv_error_chain_no_redirect r upstream_ctx st :
  Nginx.redirect_arg r = None
  \/ (Nginx.redirect_arg r = Some "1"
      /\ (upstream_ctx = None \/ upstream_ctx = Some None)) ->
  Nginx.location_calls (snd (Nginx.ngx_weserv_error_chain env r upstream_ctx st))
  = Nginx.location_calls r
  /\ (Nginx.ngx_create_temp_buf env
        (Z.of_nat (String.length (Nginx.to_json st))) = true ->
      Nginx.status
        (Nginx.headers_out
           (snd (Nginx.ngx_weserv_error_chain env r upstream_ctx st)))
      = Nginx.http_code st).
Proof.
  intros Hnone.
  destruct (ngx_weserv_error_chain_cases r upstream_ctx st)
    as (http_status & calls & Hredirect & ->).
  assert (Hcalls : http_status = Nginx.http_code st /\ calls = []).
  { destruct Hredirect as [Hno | (u & target & Harg & Hne & _ & Htarget & _)];
      [done |].
    destruct Hnone as [Hnone | [Hone Hctx]]; [congruence |].
    rewrite Hone in Harg. injection Harg as <-.
    simpl in Htarget. destruct Hctx; congruence. }
  destruct Hcalls as [-> ->]. cbv zeta. rewrite app_nil_r.
  destruct (Nginx.ngx_create_temp_buf env _); simpl.
  - by destruct (negb (Nginx.ngx_alloc_chain_link env)).
  - done.
Qed.

(** X25.  The ["default"] parameter is looked up first: when it is given,
    what the function returns, the headers it writes and the target it
    redirects to do not depend on the ["errorredirect"] parameter. *)
Theorem ngx_weserv_error_chain_default_first r1 r2 upstream_ctx st
    (redirect_uri : string) :
  Nginx.ngx_http_arg r1 "default" = Some redirect_uri ->
  Nginx.ngx_http_arg r2 "default" = Some redirect_uri ->
  Nginx.headers_out r1 = Nginx.headers_out r2 ->
  Nginx.location_calls r1 = Nginx.location_calls r2 ->
  let run1 := Nginx.ngx_weserv_error_chain env r1 upstream_ctx st in
  let run2 := Nginx.ngx_weserv_error_chain env r2 upstream_ctx st in
  fst run1 = fst run2
  /\ Nginx.headers_out (snd run1) = Nginx.headers_out (snd run2)
  /\ Nginx.location_calls (snd run1) = Nginx.location_calls (snd run2).
Proof.
  intros H1 H2 Hheaders Hcalls. cbv zeta.
  unfold Nginx.ngx_weserv_error_chain, Nginx.redirect_arg.
  rewrite H1, H2, Hheaders, Hcalls.
  destruct (Nginx.not_literal_one redirect_uri);
    destruct (0 <? _); try destruct (Nginx.set_location_header env _);
    destruct (negb (Nginx.ngx_create_temp_buf env _));
    try destruct (negb (Nginx.ngx_alloc_chain_link env)); simpl;
    rewrite ?Hheaders, ?Hcalls; done.
Qed.

(** X26.  The two ways to [NGX_CHAIN_ERROR].  When the buffer cannot be
    allocated, the function returns it and has written none of the
    response headers.  When the buffer is allocated and the chain link is
    not, the function returns it after it has set the status, the content
    type and the content length of the response. *)
Theorem ngx_weserv_error_chain_allocation r upstream_ctx st :
  let run := Nginx.ngx_weserv_error_chain env r upstream_ctx st in
  let content_length := Z.of_nat (String.length (Nginx.to_json st)) in
  (Nginx.ngx_create_temp_buf env content_length = false ->
   fst run = None /\ Nginx.headers_out (snd run) = Nginx.headers_out r)
  /\ (Nginx.ngx_create_temp_buf env content_length = true ->
      Nginx.ngx_alloc_chain_link env = false ->
      fst run = None
      /\ Nginx.content_type (Nginx.headers_out (snd run)) = "application/json"
      /\ Nginx.content_length_n (Nginx.headers_out (snd run)) = content_length
      /\ (Nginx.status (Nginx.headers_out (snd run)) = Nginx.http_code st
          \/ Nginx.status (Nginx.headers_out (snd run)) = 302))
  /\ (fst run = None ->
      Nginx.ngx_create_temp_buf env content_length = false
      \/ Nginx.ngx_alloc_chain_link env = false).
Proof.
  cbv zeta.
  destruct (ngx_weserv_error_chain_cases r upstream_ctx st)
    as (http_status & calls & Hredirect & ->).
  cbv zeta. split; [| split].
  - by intros ->.
  - intros -> ->. simpl. repeat split.
    destruct Hredirect as [[-> _] | (u & target & _ & _ & _ & _ & ->)];
      [by left |].
    destruct (Nginx.set_location_header env target); [by right | by left].
  - destruct (Nginx.ngx_create_temp_buf env _); [| by left].
    destruct (Nginx.ngx_alloc_chain_link env); [done | by right].
Qed.

End ErrorChain.

Lemma ngx_weserv_error_chain_response_witness :
  let r := Inputs.request [("default", "https://example.org/fallback.png")] in
  let st := Inputs.not_found in
  let out := Nginx.mkChain (Nginx.mkBuf (Nginx.to_json st) true true) [] in
  let r' := snd (Nginx.ngx_weserv_error_chain Inputs.env r None st) in
  Nginx.buf out = Nginx.mkBuf (Nginx.to_json st) true true
  /\ Nginx.next out = []
  /\ Nginx.content_type (Nginx.headers_out r') = "application/json"
  /\ Nginx.content_type_len (Nginx.headers_out r') = 16
  /\ Nginx.content_type_lowcase (Nginx.headers_out r') = None
  /\ Nginx.content_length_n (Nginx.headers_out r')
     = Z.of_nat (String.length (Nginx.to_json st))
  /\ (Nginx.status (Nginx.headers_out r') = Nginx.http_code st
      \/ Nginx.status (Nginx.headers_out r') = 302)
  /\ (Nginx.location_calls r' = Nginx.location_calls r
      \/ exists target,
           Nginx.location_calls r' = Nginx.location_calls r ++ [target]).
Proof.
  intros r st out r'.
  apply (ngx_weserv_error_chain_response Inputs.env r None st out r').
  reflexivity.
Defined.

Lemma ngx_weserv_error_chain_redirect_witness :
  let r := Inputs.request [("errorredirect", "https://example.org/gone.png")] in
  let st := Inputs.not_found in
  let r' := snd (Nginx.ngx_weserv_error_chain Inputs.env r None st) in
  (Nginx.status (Nginx.headers_out r') = 302
   <-> exists target,
         Nginx.location_calls r' = Nginx.location_calls r ++ [target]
         /\ target <> EmptyString
         /\ Nginx.set_location_header Inputs.env target = true)
  /\ (Nginx.status (Nginx.headers_out r') <> 302 ->
      Nginx.status (Nginx.headers_out r') = Nginx.http_code st).
Proof.
  intros r st r'.
  apply (ngx_weserv_error_chain_redirect Inputs.env r None st
           (Nginx.mkChain (Nginx.mkBuf (Nginx.to_json st) true true) []) r').
  - reflexivity.
  - discriminate.
Defined.

Lemma ngx_weserv_error_chain_no_redirect_witness :
  let r := Inputs.request [("default", "1")] in
  let run := Nginx.ngx_weserv_error_chain Inputs.env r (Some None)
               Inputs.not_found in
  Nginx.location_calls (snd run) = Nginx.location_calls r
  /\ (Nginx.ngx_create_temp_buf Inputs.env
        (Z.of_nat (String.length (Nginx.to_json Inputs.not_found))) = true ->
      Nginx.status (Nginx.headers_out (snd run))
      = Nginx.http_code Inputs.not_found).
Proof.
  intros r run.
  apply (ngx_weserv_error_chain_no_redirect Inputs.env r (Some None)
           Inputs.not_found).
  right. split; [reflexivity | by right].
Defined.

Lemma ngx_weserv_error_chain_default_first_witness :
  let r1 := Inputs.request [("errorredirect", "https://example.org/old.png");
                            ("default", "https://example.org/new.png")] in
  let r2 := Inputs.request [("default", "https://example.org/new.png")] in
  let run1 := Nginx.ngx_weserv_error_chain Inputs.env r1 None Inputs.not_found in
  let run2 := Nginx.ngx_weserv_error_chain Inputs.env r2 None Inputs.not_found in
  fst run1 = fst run2
  /\ Nginx.headers_out (snd run1) = Nginx.headers_out (snd run2)
  /\ Nginx.location_calls (snd run1) = Nginx.location_calls (snd run2).
Proof.
  intros r1 r2.
  apply (ngx_weserv_error_chain_default_first Inputs.env r1 r2 None
           Inputs.not_found "https://example.org/new.png"); reflexivity.
Defined.

Lemma ngx_weserv_error_chain_allocation_witness :
  let env := Nginx.mkEnv (fun uri => uri) (fun _ => true) (fun _ => true) false in
  let r := Inputs.request [("default", "https://example.org/fallback.png")] in
  let st := Inputs.not_found in
  let run := Nginx.ngx_weserv_error_chain env r None st in
  fst run = None
  /\ Nginx.content_type (Nginx.headers_out (snd run)) = "application/json"
  /\ Nginx.content_length_n (Nginx.headers_out (snd run))
     = Z.of_nat (String.length (Nginx.to_json st))
  /\ (Nginx.status (Nginx.headers_out (snd run)) = Nginx.http_code st
      \/ Nginx.status (Nginx.headers_out (snd run)) = 302).
Proof.
  intros env r st run.
  apply (proj1 (proj2 (ngx_weserv_error_chain_allocation env r None st)));
    reflexivity.
Defined.
